(** * Distillation training script (StudentGaussianIAF/train.py)

    A shallow embedding of the training script of the ClariNet student
    (Gaussian inverse autoregressive flow) and of the parts of Chainer the
    script drives: parameters with update rules, the Adam optimizer with its
    gradient-clipping hook, iterators, updaters, the trainer loop and its
    extensions.

    Conventions.
    - Python [int] is [Z]; counters that only count up are [nat].
    - Scalar hyperparameters (learning rate, decay rate) are exact rationals
      [Q], compared with [==]; tensor entries are real numbers [R], because
      the gradient norm needs a square root.  Rounding of the machine floats
      is not modelled.
    - A Python exception is a value of [PyError] in the error monad [Exc].
    - The networks themselves (WaveNet, ParallelWaveNet, UpsampleNet and the
      loss of DistilModel) are parameters of the development, see [Net]. *)

From Stdlib Require Import ZArith QArith Reals Lra Lia List String Bool Arith.
From Stdlib Require Import DecimalString Qpower.
From Stdlib Require Import Qround Permutation DecimalNat Ascii.
Import ListNotations.

(* ===================================================================== *)
(** ** Python values and exceptions *)
(* ===================================================================== *)

Module Py.

Inductive PyError : Type :=
| ZeroDivisionError
| IndexError
| KeyError (key : string)
| IOError (path : string)
| AttributeError (attr : string)
| RuntimeError (msg : string).

Inductive Exc (A : Type) : Type :=
| Ok (a : A)
| Raise (e : PyError).
Arguments Ok {A} a.
Arguments Raise {A} e.

Definition bind {A B : Type} (c : Exc A) (k : A -> Exc B) : Exc B :=
  match c with
  | Ok a => k a
  | Raise e => Raise e
  end.

Fixpoint mapM {A B : Type} (f : A -> Exc B) (l : list A) : Exc (list B) :=
  match l with
  | [] => Ok []
  | a :: l' =>
      bind (f a) (fun b => bind (mapM f l') (fun bs => Ok (b :: bs)))
  end.

(** [len(l)] as a Python int. *)
Definition len {A : Type} (l : list A) : Z := Z.of_nat (List.length l).

(** [x / n] for a float [x] and an int [n]. *)
Definition truediv (x : Q) (n : Z) : Exc Q :=
  if (n =? 0)%Z then Raise ZeroDivisionError else Ok (x / inject_Z n)%Q.

(** [a // b] on ints: floor division, which is [Z.div]. *)
Definition floordiv (a b : Z) : Exc Z :=
  if (b =? 0)%Z then Raise ZeroDivisionError else Ok (a / b)%Z.

(** [l[0]]. *)
Definition item0 {A : Type} (l : list A) : Exc A :=
  match l with
  | [] => Raise IndexError
  | a :: _ => Ok a
  end.

(** [l1 == l2] on lists of ints. *)
Fixpoint list_eqb (l1 l2 : list Z) : bool :=
  match l1, l2 with
  | [], [] => true
  | a :: l1', b :: l2' => (a =? b)%Z && list_eqb l1' l2'
  | _, _ => false
  end.

(** [str(n)] for a non-negative int. *)
Definition str (n : nat) : string := NilEmpty.string_of_uint (Nat.to_uint n).

(** Truth value of a string: only the empty string is falsy. *)
Definition truthy (s : string) : bool :=
  match s with
  | EmptyString => false
  | _ => true
  end.

End Py.

Export Py.

Declare Scope exc_scope.
Delimit Scope exc_scope with exc.
Notation "x <- c ;; k" := (Py.bind c (fun x => k))
  (at level 61, c at next level, right associativity) : exc_scope.
Open Scope exc_scope.

(* ===================================================================== *)
(** ** Chainer: parameters, links, optimizer, hooks *)
(* ===================================================================== *)

Module Chainer.

(** An array is the flat list of its entries. *)
Definition array : Type := list R.

(** [chainer.UpdateRule]: the per-parameter part of an optimizer.  Adam keeps
    its moment estimates in [rule_state]. *)
Record UpdateRule : Type := mkRule {
  enabled : bool;
  rule_t : nat;
  rule_state : list array
}.

(** [chainer.Parameter], named [Param] here.  [update_rule] is [None] until an optimizer is set
    up on the link that owns the parameter.  [grad] holds zeros where the
    backward pass leaves the gradient cleared. *)
Record Param : Type := mkParam {
  data : array;
  grad : array;
  update_rule : option UpdateRule
}.

(** A link hierarchy, flattened as [namedparams()] lists it. *)
Definition Link : Type := list (string * Param).

Definition map_params (f : Param -> Param) (l : Link) : Link :=
  map (fun np => (fst np, f (snd np))) l.

Definition values (l : Link) : list (string * array) :=
  map (fun np => (fst np, data (snd np))) l.

Definition grads (l : Link) : list array := map (fun np => grad (snd np)) l.

(** [Link.disable_update()]:
    for each parameter, [if rule is not None: rule.enabled = False]. *)
Definition disable_rule (p : Param) : Param :=
  match update_rule p with
  | Some r => mkParam (data p) (grad p)
                      (Some (mkRule false (rule_t r) (rule_state r)))
  | None => p
  end.

Definition disable_update (l : Link) : Link := map_params disable_rule l.

(** [Optimizer.setup(link)] gives every parameter of the link a fresh,
    enabled update rule. *)
Definition create_update_rule : UpdateRule := mkRule true 0 [].

Definition setup_param (p : Param) : Param :=
  mkParam (data p) (grad p) (Some create_update_rule).

Definition setup_link (l : Link) : Link := map_params setup_param l.

(** Parameters of the link whose update rule is present and enabled: the
    ones a call of [Optimizer.update] writes. *)
Definition is_updated (p : Param) : bool :=
  match update_rule p with
  | Some r => enabled r
  | None => false
  end.

Definition updated_names (l : Link) : list string :=
  map fst (filter (fun np => is_updated (snd np)) l).

(** *** Adam and its hyperparameters *)

Record Hyper : Type := mkHyper { alpha : Q; beta1 : Q; beta2 : Q; eps : Q }.

Definition getattr (h : Hyper) (name : string) : Exc Q :=
  if (name =? "alpha")%string then Ok (alpha h)
  else if (name =? "beta1")%string then Ok (beta1 h)
  else if (name =? "beta2")%string then Ok (beta2 h)
  else if (name =? "eps")%string then Ok (eps h)
  else Raise (AttributeError name).

(** [setattr(optimizer, name, value)]; a name that is no hyperparameter
    becomes a plain attribute that no update rule reads. *)
Definition setattr (h : Hyper) (name : string) (v : Q) : Hyper :=
  if (name =? "alpha")%string then mkHyper v (beta1 h) (beta2 h) (eps h)
  else if (name =? "beta1")%string then mkHyper (alpha h) v (beta2 h) (eps h)
  else if (name =? "beta2")%string then mkHyper (alpha h) (beta1 h) v (eps h)
  else if (name =? "eps")%string then mkHyper (alpha h) (beta1 h) (beta2 h) v
  else h.

(** *** Gradient clipping

    [GradientClipping(threshold).__call__]:
<<
    norm = numpy.sqrt(_sum_sqnorm([p.grad for p in opt.target.params(False)]))
    rate = self.threshold / norm
    if rate < 1:
        for param in opt.target.params(False):
            param.grad *= rate
>>
    A zero norm gives [rate = inf], which is not below 1. *)

Inductive Hook : Type :=
| GradientClipping (threshold : R).

Definition sqnorm (a : array) : R := fold_right (fun x s => x * x + s)%R 0%R a.

Definition sum_sqnorm (gs : list array) : R :=
  fold_right (fun a s => sqnorm a + s)%R 0%R gs.

Definition global_norm (gs : list array) : R := sqrt (sum_sqnorm gs).

(** [Some rate] when the gradients are to be multiplied by [rate]. *)
Definition clip_rate (threshold : R) (gs : list array) : option R :=
  let norm := global_norm gs in
  if Req_dec_T norm 0 then None
  else if Rlt_dec (threshold / norm) 1 then Some (threshold / norm)%R
       else None.

Definition scale (rate : R) (a : array) : array := map (fun x => x * rate)%R a.

Definition scale_grad (rate : R) (p : Param) : Param :=
  mkParam (data p) (scale rate (grad p)) (update_rule p).

(** A reference to a link of the model: [[]] is the model itself, [[name]]
    its child of that name. *)
Definition LinkPath : Type := list string.

(** [target] is the link handed to [setup], [None] before. *)
Record Optimizer : Type := mkOptimizer {
  hyper : Hyper;
  opt_t : nat;
  target : option LinkPath;
  hooks : list Hook
}.

(** [chainer.optimizers.Adam(alpha)] with the library's defaults for the
    other hyperparameters. *)
Definition Adam (a : Q) : Optimizer :=
  mkOptimizer (mkHyper a (9 # 10) (999 # 1000) (1 # 100000000)) 0 None [].

(** [Optimizer.add_hook] refuses an optimizer that is not set up. *)
Definition add_hook (h : Hook) (o : Optimizer) : Exc Optimizer :=
  match target o with
  | Some _ => Ok (mkOptimizer (hyper o) (opt_t o) (target o) (hooks o ++ [h]))
  | None => Raise (RuntimeError "call `setup` method before `add_hook` method")
  end.

(** *** Iterators and updaters *)

Inductive Dataset : Type := TrainSplit | ValidSplit.

Inductive Iterator : Type :=
| MultiprocessIterator (dataset : Dataset) (batch_size : Z)
                       (repeat shuffle : bool) (n_processes n_prefetch : Z)
| SerialIterator (dataset : Dataset) (batch_size : Z) (repeat shuffle : bool).

Definition batch_size_of (it : Iterator) : Z :=
  match it with
  | MultiprocessIterator _ b _ _ _ _ => b
  | SerialIterator _ b _ _ => b
  end.

Definition is_multiprocess (it : Iterator) : bool :=
  match it with
  | MultiprocessIterator _ _ _ _ _ _ => true
  | SerialIterator _ _ _ _ => false
  end.

Inductive Updater : Type :=
| StandardUpdater (it : Iterator)
| ParallelUpdater (it : Iterator) (devices : list (string * Z)).

(** *** ExponentialShift

<<
    def initialize(self, trainer):
        if self._init is None:
            self._init = getattr(optimizer, self._attr)
        if self._last_value is not None:   # resuming from a snapshot
            self._update_value(optimizer, self._last_value)
        else:
            self._update_value(optimizer, self._init)
    def __call__(self, trainer):
        self._t += 1
        value = self._init * (self._rate ** self._t)
        self._update_value(optimizer, value)
>>
    [_update_value] sets the attribute and remembers it in [_last_value]. *)

Record Shift : Type := mkShift {
  shift_attr : string;
  shift_rate : Q;
  shift_init : option Q;
  shift_t : nat;
  shift_last : option Q
}.

Definition shift_initialize (s : Shift) (h : Hyper) : Exc (Shift * Hyper) :=
  init <- match shift_init s with
          | Some i => Ok i
          | None => getattr h (shift_attr s)
          end ;;
  let value := match shift_last s with
               | Some v => v
               | None => init
               end in
  Ok (mkShift (shift_attr s) (shift_rate s) (Some init) (shift_t s) (Some value),
      setattr h (shift_attr s) value).

Definition shift_call (s : Shift) (h : Hyper) : Shift * Hyper :=
  let t := S (shift_t s) in
  match shift_init s with
  | Some init =>
      let value := (init * shift_rate s ^ Z.of_nat t)%Q in
      (mkShift (shift_attr s) (shift_rate s) (Some init) t (Some value),
       setattr h (shift_attr s) value)
  | None => (mkShift (shift_attr s) (shift_rate s) None t (shift_last s), h)
  end.

End Chainer.

Export Chainer.

(* ===================================================================== *)
(** ** Snapshot files *)
(* ===================================================================== *)

(** An [.npz] file is a dictionary from slash-separated keys to values. *)
Inductive NpzValue : Type :=
| NArray (a : array)
| NArrays (l : list array)
| NInt (n : nat)
| NFloat (x : option Q).

Definition Npz : Type := list (string * NpzValue).

Fixpoint lookup {A : Type} (key : string) (d : list (string * A)) : option A :=
  match d with
  | [] => None
  | (k, v) :: d' => if (k =? key)%string then Some v else lookup key d'
  end.

Definition read_array (f : Npz) (key : string) : Exc array :=
  match lookup key f with
  | Some (NArray a) => Ok a
  | _ => Raise (KeyError key)
  end.

Definition read_arrays (f : Npz) (key : string) : Exc (list array) :=
  match lookup key f with
  | Some (NArrays l) => Ok l
  | _ => Raise (KeyError key)
  end.

Definition read_int (f : Npz) (key : string) : Exc nat :=
  match lookup key f with
  | Some (NInt n) => Ok n
  | _ => Raise (KeyError key)
  end.

Definition read_float (f : Npz) (key : string) : Exc (option Q) :=
  match lookup key f with
  | Some (NFloat x) => Ok x
  | _ => Raise (KeyError key)
  end.

(** [Link.serialize] with a deserializer rooted at [path]: every parameter's
    data is replaced by the array stored under [path ++ name]. *)
Definition load_param (f : Npz) (path : string) (np : string * Param)
  : Exc (string * Param) :=
  a <- read_array f (path ++ fst np) ;;
  Ok (fst np, mkParam a (grad (snd np)) (update_rule (snd np))).

Definition load_link (f : Npz) (path : string) (l : Link) : Exc Link :=
  mapM (load_param f path) l.

(** [Optimizer.serialize] visits the update rule of every parameter of the
    target that has one: its step count and its state. *)
Definition load_rule (f : Npz) (path : string) (np : string * Param)
  : Exc (string * Param) :=
  match update_rule (snd np) with
  | None => Ok np
  | Some r =>
      t <- read_int f (path ++ fst np ++ "/t") ;;
      st <- read_arrays f (path ++ fst np ++ "/state") ;;
      Ok (fst np, mkParam (data (snd np)) (grad (snd np))
                          (Some (mkRule (enabled r) t st)))
  end.

Definition load_rules (f : Npz) (path : string) (l : Link) : Exc Link :=
  mapM (load_rule f path) l.

Definition save_link (path : string) (l : Link) : Npz :=
  map (fun np => ((path ++ fst np)%string, NArray (data (snd np)))) l.

Definition save_rule (path : string) (np : string * Param) : Npz :=
  match update_rule (snd np) with
  | None => []
  | Some r => [ ((path ++ fst np ++ "/t")%string, NInt (rule_t r));
                ((path ++ fst np ++ "/state")%string, NArrays (rule_state r)) ]
  end.

Definition save_rules (path : string) (l : Link) : Npz :=
  flat_map (save_rule path) l.

(* ===================================================================== *)
(** ** The distillation model *)
(* ===================================================================== *)

(** Modelled from the spec: [DistilModel] of net.py, which is not among the
    sources.  It is the chain of the conditioning encoder, the teacher and the
    student; train.py reads its children as [model.encoder] and
    [model.teacher]. *)
Record DistilModel : Type := mkModel {
  encoder : Link;
  teacher : Link;
  student : Link
}.

Inductive Child : Type := Encoder | Teacher | Student.

Definition child_name (c : Child) : string :=
  match c with
  | Encoder => "encoder"
  | Teacher => "teacher"
  | Student => "student"
  end.

Definition child (c : Child) (m : DistilModel) : Link :=
  match c with
  | Encoder => encoder m
  | Teacher => teacher m
  | Student => student m
  end.

Definition map_links (f : Child -> Link -> Link) (m : DistilModel) : DistilModel :=
  mkModel (f Encoder (encoder m)) (f Teacher (teacher m)) (f Student (student m)).

Definition in_target (path : LinkPath) (c : Child) : bool :=
  match path with
  | [] => true
  | [n] => (n =? child_name c)%string
  | _ => false
  end.

Definition map_target (path : LinkPath) (f : Link -> Link) (m : DistilModel)
  : DistilModel :=
  map_links (fun c l => if in_target path c then f l else l) m.

Definition qualify (c : Child) (l : Link) : Link :=
  map (fun np => (("/" ++ child_name c ++ "/" ++ fst np)%string, snd np)) l.

(** [target.namedparams()]. *)
Definition namedparams (path : LinkPath) (m : DistilModel) : Link :=
  flat_map (fun c => if in_target path c then qualify c (child c m) else [])
           [Encoder; Teacher; Student].

Definition target_grads (path : LinkPath) (m : DistilModel) : list array :=
  grads (namedparams path m).

(** The frozen parameter set: the values of teacher and encoder. *)
Definition frozen (m : DistilModel) : list (string * array) * list (string * array) :=
  (values (teacher m), values (encoder m)).

(** The trainable parameter set: the values of the student. *)
Definition trainable (m : DistilModel) : list (string * array) :=
  values (student m).

(** The four scalars a forward pass of the model reports. *)
Record Losses : Type := mkLosses {
  loss : R;
  kl_divergence : R;
  regularization : R;
  spectrogram_frame_loss : R
}.

(* ===================================================================== *)
(** ** Command line, configuration and environment *)
(* ===================================================================== *)

Module args.

(** The result of [parser.parse_args()]. *)
Record t : Type := mk {
  gpus : list Z;
  process : Z;
  prefetch : Z;
  resume : string
}.

(** The defaults of the four [add_argument] calls. *)
Definition default : t := mk [(-1)%Z] 1 64 "".

End args.

(** A trigger decides from the iteration count whether it fires.  The
    intervals of params.py reach the trainer as such predicates. *)
Definition Trigger : Type := nat -> bool.

(** The trigger an extension gets when [trainer.extend] names none:
    [(1, 'iteration')], except that [dump_graph] brings its own, which fires
    at the first iteration only. *)
Definition every_iteration : Trigger := fun _ => true.

Definition first_iteration : Trigger := fun it => (it =? 1)%nat.

(** [(period, 'iteration')] for a period of at least 1. *)
Definition interval (period : nat) : Trigger :=
  fun it => (0 <? it)%nat && (it mod period =? 0)%nat.

Module params.

(** The constants of params.py that train.py reads outside the network
    constructors.  params.py is not among the sources; its values are inputs
    here. *)
Record t : Type := mk {
  lr : Q;
  batchsize : Z;
  model : string;
  trigger : Trigger;
  annealing_interval : Trigger;
  evaluate_interval : Trigger;
  snapshot_interval : Trigger;
  report_interval : Trigger
}.

End params.

(** What the script finds when it starts: the freshly constructed networks
    and the files it can read. *)
Record Env : Type := mkEnv {
  new_encoder : Link;
  new_teacher : Link;
  new_student : Link;
  files : string -> option Npz
}.

Definition open_npz (env : Env) (path : string) : Exc Npz :=
  match files env path with
  | Some f => Ok f
  | None => Raise (IOError path)
  end.

(** [chainer.serializers.load_npz(file, link, path)]. *)
Definition load_npz (env : Env) (file : string) (l : Link) (path : string)
  : Exc Link :=
  f <- open_npz env file ;;
  load_link f path l.

(** The CUDA settings the script touches: the workspace size and the autotune
    flag of lines 36-37, and the identifier handed to
    [get_device_from_id(...).use()] in line 106. *)
Record Cuda : Type := mkCuda {
  max_workspace_size : option Z;
  autotune : bool;
  device_in_use : option Z
}.

Definition no_cuda : Cuda := mkCuda None false None.

(* ===================================================================== *)
(** ** Trainer and extensions *)
(* ===================================================================== *)

Inductive Extension : Type :=
| ExponentialShift (s : Shift)
| Evaluator (it : Iterator) (device : Z)
| dump_graph (root : string)
| snapshot
| LogReport
| observe_lr
| PrintReport (entries : list string)
| PlotReport (y_keys : list string) (x_key : string) (file_name : string)
| ProgressBar (update_interval : Z).

Record Entry : Type := mkEntry {
  extension : Extension;
  entry_trigger : Trigger
}.

(** [trainer.observation]: what the last update, the evaluator and
    [observe_lr] reported. *)
Record Observation : Type := mkObservation {
  obs_main : option Losses;
  obs_validation : option Losses;
  obs_lr : option (Hyper * nat)
}.

Definition no_observation : Observation := mkObservation None None None.

Record Trainer : Type := mkTrainer {
  the_model : DistilModel;
  optimizer : Optimizer;
  updater : Updater;
  iteration : nat;
  stop_trigger : Trigger;
  extensions : list Entry;
  observation : Observation;
  log : list (nat * Observation);
  written : list (string * Npz);
  cuda : Cuda
}.

Definition with_optimizer (o : Optimizer) (tr : Trainer) : Trainer :=
  mkTrainer (the_model tr) o (updater tr) (iteration tr) (stop_trigger tr)
            (extensions tr) (observation tr) (log tr) (written tr) (cuda tr).

Definition with_extensions (es : list Entry) (tr : Trainer) : Trainer :=
  mkTrainer (the_model tr) (optimizer tr) (updater tr) (iteration tr)
            (stop_trigger tr) es (observation tr) (log tr) (written tr) (cuda tr).

Definition with_observation (ob : Observation) (tr : Trainer) : Trainer :=
  mkTrainer (the_model tr) (optimizer tr) (updater tr) (iteration tr)
            (stop_trigger tr) (extensions tr) ob (log tr) (written tr) (cuda tr).

Definition with_log (l : list (nat * Observation)) (tr : Trainer) : Trainer :=
  mkTrainer (the_model tr) (optimizer tr) (updater tr) (iteration tr)
            (stop_trigger tr) (extensions tr) (observation tr) l (written tr)
            (cuda tr).

Definition with_written (w : list (string * Npz)) (tr : Trainer) : Trainer :=
  mkTrainer (the_model tr) (optimizer tr) (updater tr) (iteration tr)
            (stop_trigger tr) (extensions tr) (observation tr) (log tr) w
            (cuda tr).

Definition with_hyper (h : Hyper) (o : Optimizer) : Optimizer :=
  mkOptimizer h (opt_t o) (target o) (hooks o).

(** [Optimizer.setup(model)]: the model becomes the target and each of its
    parameters gets an update rule. *)
Definition setup (o : Optimizer) (m : DistilModel) : Optimizer * DistilModel :=
  (mkOptimizer (hyper o) (opt_t o) (Some []) (hooks o),
   map_links (fun _ => setup_link) m).

(** *** Serialization of the trainer

    [Trainer.serialize] hands the updater the sub-dictionary [updater/], which
    stores the iteration count, the optimizer under [optimizer:main/] and the
    model under [model:main/]; the extensions that have state store it under
    [extensions/<name>/].  Of the extensions of this script only the single
    ExponentialShift is modelled with state. *)

Definition model_key (c : Child) : string :=
  ("updater/model:main/" ++ child_name c ++ "/")%string.

Definition rule_key (c : Child) : string :=
  ("updater/optimizer:main/" ++ child_name c ++ "/")%string.

Definition save_shift (e : Entry) : Npz :=
  match extension e with
  | ExponentialShift s =>
      [ ("extensions/ExponentialShift/_t"%string, NInt (shift_t s));
        ("extensions/ExponentialShift/_last_value"%string, NFloat (shift_last s)) ]
  | _ => []
  end.

(** Whether the optimizer's target contains the child. *)
Definition targets (o : Optimizer) (c : Child) : bool :=
  match target o with
  | Some path => in_target path c
  | None => false
  end.

Definition serialize (tr : Trainer) : Npz :=
  let m := the_model tr in
  [ ("updater/iteration"%string, NInt (iteration tr));
    ("updater/optimizer:main/t"%string, NInt (opt_t (optimizer tr))) ]
  ++ flat_map (fun c => if targets (optimizer tr) c
                        then save_rules (rule_key c) (child c m) else [])
              [Encoder; Teacher; Student]
  ++ flat_map (fun c => save_link (model_key c) (child c m)) [Encoder; Teacher; Student]
  ++ flat_map save_shift (extensions tr).

Definition load_shift (f : Npz) (e : Entry) : Exc Entry :=
  match extension e with
  | ExponentialShift s =>
      t <- read_int f "extensions/ExponentialShift/_t" ;;
      last <- read_float f "extensions/ExponentialShift/_last_value" ;;
      Ok (mkEntry (ExponentialShift
                     (mkShift (shift_attr s) (shift_rate s) (shift_init s) t last))
                  (entry_trigger e))
  | _ => Ok e
  end.

Definition load_child (f : Npz) (o : Optimizer) (c : Child) (m : DistilModel)
  : Exc Link :=
  l <- (if targets o c then load_rules f (rule_key c) (child c m)
        else Ok (child c m)) ;;
  load_link f (model_key c) l.

(** [load_npz(file, trainer)]. *)
Definition deserialize (f : Npz) (tr : Trainer) : Exc Trainer :=
  it <- read_int f "updater/iteration" ;;
  t <- read_int f "updater/optimizer:main/t" ;;
  let o := optimizer tr in
  enc <- load_child f o Encoder (the_model tr) ;;
  tea <- load_child f o Teacher (the_model tr) ;;
  stu <- load_child f o Student (the_model tr) ;;
  es <- mapM (load_shift f) (extensions tr) ;;
  Ok (mkTrainer (mkModel enc tea stu)
                (mkOptimizer (hyper o) t (target o) (hooks o))
                (updater tr) it (stop_trigger tr) es (observation tr) (log tr)
                (written tr) (cuda tr)).

(* ===================================================================== *)
(** ** train.py, up to [trainer.run()] *)
(* ===================================================================== *)

(** Lines 35-37. *)
Definition configure_cuda (a : args.t) : Cuda :=
  if negb (list_eqb (args.gpus a) [(-1)%Z])
  then mkCuda (Some (2 * 512 * 1024 * 1024)%Z) true None
  else no_cuda.

(** Lines 63-80: the three networks, with encoder and teacher read from the
    snapshot of the teacher's training. *)
Definition build_model (p : params.t) (env : Env) : Exc DistilModel :=
  enc <- load_npz env (params.model p) (new_encoder env)
                  "updater/model:main/encoder/" ;;
  tea <- load_npz env (params.model p) (new_teacher env)
                  "updater/model:main/decoder/" ;;
  Ok (mkModel enc tea (new_student env)).

(** Lines 83-87. *)
Definition build_optimizer (a : args.t) (p : params.t) (m : DistilModel)
  : Exc (Optimizer * DistilModel) :=
  al <- truediv (params.lr p) (len (args.gpus a)) ;;
  let '(o, m1) := setup (Adam al) m in
  o1 <- add_hook (GradientClipping 10) o ;;
  let m2 := mkModel (encoder m1) (disable_update (teacher m1)) (student m1) in
  let m3 := mkModel (disable_update (encoder m2)) (teacher m2) (student m2) in
  Ok (o1, m3).

(** Lines 90-100: the training and the validation iterator. *)
Definition build_iterators (a : args.t) (p : params.t) : Exc (Iterator * Iterator) :=
  if (args.process a * args.prefetch a >? 1)%Z then
    vb <- floordiv (params.batchsize p) (len (args.gpus a)) ;;
    Ok (MultiprocessIterator TrainSplit (params.batchsize p) true true
                             (args.process a) (args.prefetch a),
        MultiprocessIterator ValidSplit vb false false
                             (args.process a) (args.prefetch a))
  else
    vb <- floordiv (params.batchsize p) (len (args.gpus a)) ;;
    Ok (SerialIterator TrainSplit (params.batchsize p) true true,
        SerialIterator ValidSplit vb false false).

(** Line 107: [['main'] + list(range(len(args.gpus) - 1))], each name passed
    through [str]. *)
Definition device_names (a : args.t) : list string :=
  "main"%string :: map str (seq 0 (List.length (args.gpus a) - 1)).

(** A dict built from key-value pairs: a later pair replaces an earlier one
    with the same key. *)
Fixpoint dict_set {A : Type} (k : string) (v : A) (d : list (string * A))
  : list (string * A) :=
  match d with
  | [] => [(k, v)]
  | (k', v') :: d' =>
      if (k' =? k)%string then (k, v) :: d' else (k', v') :: dict_set k v d'
  end.

Definition dict_of {A : Type} (kvs : list (string * A)) : list (string * A) :=
  fold_left (fun d kv => dict_set (fst kv) (snd kv) d) kvs [].

(** Lines 103-110. *)
Definition build_updater (a : args.t) (train_iter : Iterator) (c : Cuda)
  : Exc (Updater * Cuda) :=
  if list_eqb (args.gpus a) [(-1)%Z] then
    Ok (StandardUpdater train_iter, c)
  else
    g0 <- item0 (args.gpus a) ;;
    let c1 := mkCuda (max_workspace_size c) (autotune c) (Some g0) in
    let devices := dict_of (combine (device_names a) (args.gpus a)) in
    Ok (ParallelUpdater train_iter devices, c1).

(** Lines 116-146, in the order of the [trainer.extend] calls. *)
Definition build_extensions (p : params.t) (valid_iter : Iterator) (device : Z)
  : list Entry :=
  let report := params.report_interval p in
  [ mkEntry (ExponentialShift (mkShift "alpha" (1 # 2) None 0 None))
            (params.annealing_interval p);
    mkEntry (Evaluator valid_iter device) (params.evaluate_interval p);
    mkEntry (dump_graph "main/loss") first_iteration;
    mkEntry snapshot (params.snapshot_interval p);
    mkEntry LogReport report;
    mkEntry observe_lr report;
    mkEntry (PrintReport
               [ "epoch"; "iteration";
                 "main/loss"; "main/kl_divergence"; "main/regularization";
                 "main/spectrogram_frame_loss";
                 "validation/main/loss"; "validation/main/kl_divergence";
                 "validation/main/regularization";
                 "validation/main/spectrogram_frame_loss" ]%string) report;
    mkEntry (PlotReport ["main/loss"; "validation/main/loss"]
                        "iteration" "loss.png")%string report;
    mkEntry (PlotReport ["main/kl_divergence"; "validation/main/kl_divergence"]
                        "iteration" "kl.png")%string report;
    mkEntry (PlotReport ["main/regularization"; "validation/main/regularization"]
                        "iteration" "regularization.png")%string report;
    mkEntry (PlotReport ["main/spectrogram_frame_loss";
                         "validation/main/spectrogram_frame_loss"]
                        "iteration" "spectrogram.png")%string report;
    mkEntry (PlotReport ["lr"] "iteration" "lr.png")%string report;
    mkEntry (ProgressBar 1) every_iteration ].

(** Lines 35-146: everything before the resume. *)
Definition build (a : args.t) (p : params.t) (env : Env) : Exc Trainer :=
  let c := configure_cuda a in
  m <- build_model p env ;;
  om <- build_optimizer a p m ;;
  its <- build_iterators a p ;;
  uc <- build_updater a (fst its) c ;;
  device <- item0 (args.gpus a) ;;
  Ok (mkTrainer (snd om) (fst om) (fst uc) 0 (params.trigger p)
                (build_extensions p (snd its) device)
                no_observation [] [] (snd uc)).

(** Lines 148-149. *)
Definition resume (a : args.t) (env : Env) (tr : Trainer) : Exc Trainer :=
  if truthy (args.resume a) then
    f <- open_npz env (args.resume a) ;;
    deserialize f tr
  else Ok tr.

(** The trainer as [trainer.run()] receives it. *)
Definition main (a : args.t) (p : params.t) (env : Env) : Exc Trainer :=
  tr <- build a p env ;;
  resume a env tr.

(* ===================================================================== *)
(** ** [trainer.run()] *)
(* ===================================================================== *)

(** Modelled from the spec: the loss of [DistilModel] (net.py) and the
    networks it calls (WaveNet/, net.py) are not among the sources, and the
    arithmetic of Adam's update rule is Chainer's.  They enter as operations:
    - [backward u m b]: the gradient that [loss.backward()] leaves in each
      parameter, found by child and name, when updater [u] runs the model [m]
      on batch [b];
    - [forward m b]: the scalars a forward pass reports;
    - [update_core h r data grad]: the new state and the new data that an
      enabled update rule [r] computes under hyperparameters [h];
    - [batches it]: the batches one pass over the iterator [it] yields.
    By the spec a forward pass reads the parameters and writes none, so
    [forward] and [backward] are functions of the model. *)
Class Net : Type := mkNet {
  Batch : Type;
  backward : Updater -> DistilModel -> Batch -> Child -> string -> array;
  forward : DistilModel -> Batch -> Losses;
  update_core : Hyper -> UpdateRule -> array -> array -> list array * array;
  batches : Iterator -> list Batch
}.

Fixpoint set_nth {A : Type} (i : nat) (a : A) (l : list A) : list A :=
  match l, i with
  | [], _ => []
  | _ :: l', O => a :: l'
  | x :: l', S i' => x :: set_nth i' a l'
  end.

Definition mean (l : list R) : R := (fold_right Rplus 0 l / INR (List.length l))%R.

(** [DictSummary.compute_mean()] over the reports of the batches. *)
Definition summary (ls : list Losses) : option Losses :=
  match ls with
  | [] => None
  | _ => Some (mkLosses (mean (map loss ls)) (mean (map kl_divergence ls))
                        (mean (map regularization ls))
                        (mean (map spectrogram_frame_loss ls)))
  end.

Definition set_grads (g : Child -> string -> array) (m : DistilModel) : DistilModel :=
  map_links
    (fun c l => map (fun np => (fst np, mkParam (data (snd np)) (g c (fst np))
                                                (update_rule (snd np)))) l) m.

Definition call_hook (path : LinkPath) (m : DistilModel) (h : Hook) : DistilModel :=
  match h with
  | GradientClipping threshold =>
      match clip_rate threshold (target_grads path m) with
      | Some rate => map_target path (map_params (scale_grad rate)) m
      | None => m
      end
  end.

Definition call_hooks (o : Optimizer) (path : LinkPath) (m : DistilModel)
  : DistilModel :=
  fold_left (call_hook path) (hooks o) m.

Section Training.

Context {net : Net}.

(** [Parameter.update()]:
<<
    if self.update_rule is not None: self.update_rule.update(self)
>>
    and [UpdateRule.update]:
<<
    if not self.enabled: return
    self.t += 1
    self.update_core(param)
>> *)
Definition param_update (h : Hyper) (p : Param) : Param :=
  match update_rule p with
  | None => p
  | Some r =>
      if enabled r then
        let r1 := mkRule true (S (rule_t r)) (rule_state r) in
        let sd := update_core h r1 (data p) (grad p) in
        mkParam (snd sd) (grad p) (Some (mkRule true (S (rule_t r)) (fst sd)))
      else p
  end.

(** [GradientMethod.update(lossfun, batch)]:
<<
    loss = lossfun(batch); self.target.cleargrads(); loss.backward()
    self.call_hooks()
    self.t += 1
    for param in self.target.params(): param.update()
>> *)
Definition optimizer_update (u : Updater) (b : Batch) (o : Optimizer)
  (m : DistilModel) : Exc (Optimizer * DistilModel) :=
  match target o with
  | None => Raise (RuntimeError "optimizer is not set up")
  | Some path =>
      let m1 := set_grads (backward u m b) m in
      let m2 := call_hooks o path m1 in
      Ok (mkOptimizer (hyper o) (S (opt_t o)) (target o) (hooks o),
          map_target path (map_params (param_update (hyper o))) m2)
  end.

(** [updater.update()]: one optimizer step on the next batch, then
    [iteration += 1].  The trainer starts each iteration with an empty
    observation, into which the forward pass reports. *)
Definition update (b : Batch) (tr : Trainer) : Exc Trainer :=
  om <- optimizer_update (updater tr) b (optimizer tr) (the_model tr) ;;
  Ok (mkTrainer (snd om) (fst om) (updater tr) (S (iteration tr))
                (stop_trigger tr) (extensions tr)
                (mkObservation (Some (forward (the_model tr) b)) None None)
                (log tr) (written tr) (cuda tr)).

(** [Evaluator.evaluate()]: a forward pass of the model on each batch of a
    copy of the iterator, averaged. *)
Definition evaluate (it : Iterator) (m : DistilModel) : option Losses :=
  summary (map (forward m) (batches it)).

(** The call of the extension registered at position [i].  The extensions
    that only print, plot or draw leave the trainer as it is. *)
Definition call_extension (i : nat) (e : Entry) (tr : Trainer) : Trainer :=
  match extension e with
  | ExponentialShift s =>
      let sh := shift_call s (hyper (optimizer tr)) in
      with_extensions
        (set_nth i (mkEntry (ExponentialShift (fst sh)) (entry_trigger e))
                 (extensions tr))
        (with_optimizer (with_hyper (snd sh) (optimizer tr)) tr)
  | Evaluator it _ =>
      let ob := observation tr in
      with_observation
        (mkObservation (obs_main ob) (evaluate it (the_model tr)) (obs_lr ob)) tr
  | snapshot =>
      with_written
        (written tr ++ [(("snapshot_iter_" ++ str (iteration tr))%string,
                         serialize tr)]) tr
  | LogReport => with_log (log tr ++ [(iteration tr, observation tr)]) tr
  | observe_lr =>
      let ob := observation tr in
      with_observation
        (mkObservation (obs_main ob) (obs_validation ob)
                       (Some (hyper (optimizer tr), opt_t (optimizer tr)))) tr
  | dump_graph _ | PrintReport _ | PlotReport _ _ _ | ProgressBar _ => tr
  end.

Definition invoke (tr : Trainer) (i : nat) : Trainer :=
  match nth_error (extensions tr) i with
  | Some e => if entry_trigger e (iteration tr) then call_extension i e tr else tr
  | None => tr
  end.

(** The extensions whose trigger fires are called one after the other.
    Chainer orders them by priority; they are taken here in the order of
    registration. *)
Definition run_extensions (tr : Trainer) : Trainer :=
  fold_left invoke (seq 0 (List.length (extensions tr))) tr.

(** One pass of the body of the training loop. *)
Definition step (tr : Trainer) (b : Batch) : Exc Trainer :=
  tr1 <- update b tr ;;
  Ok (run_extensions tr1).

(** [n] completed passes, one per batch of [bs]. *)
Fixpoint steps (bs : list Batch) (tr : Trainer) : Exc Trainer :=
  match bs with
  | [] => Ok tr
  | b :: bs' => tr1 <- step tr b ;; steps bs' tr1
  end.

(** [extension.initialize(trainer)] for the extension at position [i]; of
    this script's extensions only ExponentialShift has one. *)
Definition initialize_at (tr : Exc Trainer) (i : nat) : Exc Trainer :=
  tr0 <- tr ;;
  match nth_error (extensions tr0) i with
  | Some e =>
      match extension e with
      | ExponentialShift s =>
          sh <- shift_initialize s (hyper (optimizer tr0)) ;;
          Ok (with_extensions
                (set_nth i (mkEntry (ExponentialShift (fst sh)) (entry_trigger e))
                         (extensions tr0))
                (with_optimizer (with_hyper (snd sh) (optimizer tr0)) tr0))
      | _ => Ok tr0
      end
  | None => Ok tr0
  end.

Definition initialize (tr : Trainer) : Exc Trainer :=
  fold_left initialize_at (seq 0 (List.length (extensions tr))) (Ok tr).

(** [while not stop_trigger(trainer): ...], on the batches [bs] that the
    training iterator yields. *)
Fixpoint loop (bs : list Batch) (tr : Trainer) : Exc Trainer :=
  match bs with
  | [] => Ok tr
  | b :: bs' =>
      if stop_trigger tr (iteration tr) then Ok tr
      else tr1 <- step tr b ;; loop bs' tr1
  end.

Definition run (bs : list Batch) (tr : Trainer) : Exc Trainer :=
  tr0 <- initialize tr ;;
  loop bs tr0.

(** The whole script. *)
Definition train (a : args.t) (p : params.t) (env : Env) (bs : list Batch)
  : Exc Trainer :=
  tr <- main a p env ;;
  run bs tr.

End Training.

(* ===================================================================== *)
(** ** Notions used in the statements *)
(* ===================================================================== *)

(** The names of a link's parameters, each with the flag of its update rule
    ([None] when it has no rule). *)
Definition skeleton (l : Link) : list (string * option bool) :=
  map (fun np => (fst np, option_map enabled (update_rule (snd np)))) l.

(** The update rules of a link, by parameter name. *)
Definition rules (l : Link) : list (string * option UpdateRule) :=
  map (fun np => (fst np, update_rule (snd np))) l.

(** No parameter of the link is written by an optimizer step. *)
Definition frozen_off (l : Link) : Prop :=
  Forall (fun np => is_updated (snd np) = false) l.

(** Every parameter of the link has an update rule whose flag is [b]. *)
Definition flags_are (b : bool) (l : Link) : Prop :=
  Forall (fun np => option_map enabled (update_rule (snd np)) = Some b) l.

Definition is_shift (e : Entry) : bool :=
  match extension e with
  | ExponentialShift _ => true
  | _ => false
  end.

(** Two links with the same names whose parameters are related one by one. *)
Definition pointwise (rel : Param -> Param -> Prop) (l l' : Link) : Prop :=
  Forall2 (fun np np' => fst np' = fst np /\ rel (snd np) (snd np')) l l'.

(** A parameter before and after (part of) an optimizer step: the flag of its
    rule stays, and unless the rule is enabled so do data and rule. *)
Definition step_rel (p p' : Param) : Prop :=
  option_map enabled (update_rule p') = option_map enabled (update_rule p) /\
  (is_updated p = false -> data p' = data p /\ update_rule p' = update_rule p).

(** The extension registered at position [i], if any, is no ExponentialShift. *)
Definition no_shift_at (es : list Entry) (i : nat) : Prop :=
  match nth_error es i with
  | Some e => is_shift e = false
  | None => True
  end.

(** The state of an ExponentialShift and the hyperparameters after the
    iteration [it], at which the extension is called if its trigger fires. *)
Definition shifted (trig : Trigger) (it : nat) (s : Shift) (h : Hyper)
  : Shift * Hyper :=
  if trig it then shift_call s h else (s, h).


(** What the parts of the trainer that a training run computes with:
    everything but the observation, the log and the files written. *)
Definition core (tr : Trainer)
  : DistilModel * Optimizer * Updater * nat * list Entry :=
  (the_model tr, optimizer tr, updater tr, iteration tr, extensions tr).

Section Runs.

Context {net : Net}.

(** The model after the optimizer step on batch [b]. *)
Definition updated_model (u : Updater) (b : Batch) (o : Optimizer)
  (path : LinkPath) (m : DistilModel) : DistilModel :=
  map_target path (map_params (param_update (hyper o)))
             (call_hooks o path (set_grads (backward u m b) m)).


(** A run that starts from what [main] returns, resumed or not. *)
Definition run_steps (bs : list Batch) (tr : Trainer) : Exc Trainer :=
  tr0 <- initialize tr ;;
  steps bs tr0.

End Runs.

(* ===================================================================== *)
(** ** A small concrete run, used for examples *)
(* ===================================================================== *)

Module Sample.

(** One weight per network; the update rule subtracts the gradient. *)
Definition net : Net :=
  mkNet unit
        (fun _ _ _ _ _ => [60; 80]%R)
        (fun _ _ => mkLosses 0 0 0 0)
        (fun _ r d g => (rule_state r, map (fun x => x - 1)%R d))
        (fun _ => [tt; tt]).

Definition weight (x : R) : Link := [("W"%string, mkParam [x] [] None)].


Definition teacher_snapshot : Npz :=
  [ ("updater/model:main/encoder/W"%string, NArray [1%R]);
    ("updater/model:main/decoder/W"%string, NArray [2%R]) ].

Definition student_snapshot : Npz :=
  [ ("updater/iteration"%string, NInt 7);
    ("updater/optimizer:main/t"%string, NInt 7);
    ("updater/optimizer:main/encoder/W/t"%string, NInt 0);
    ("updater/optimizer:main/encoder/W/state"%string, NArrays []);
    ("updater/optimizer:main/teacher/W/t"%string, NInt 0);
    ("updater/optimizer:main/teacher/W/state"%string, NArrays []);
    ("updater/optimizer:main/student/W/t"%string, NInt 7);
    ("updater/optimizer:main/student/W/state"%string, NArrays [[3%R]; [4%R]]);
    ("updater/model:main/encoder/W"%string, NArray [1%R]);
    ("updater/model:main/teacher/W"%string, NArray [2%R]);
    ("updater/model:main/student/W"%string, NArray [5%R]);
    ("extensions/ExponentialShift/_t"%string, NInt 1);
    ("extensions/ExponentialShift/_last_value"%string, NFloat (Some (1 # 2000))) ].

Definition env : Env :=
  mkEnv (weight 0) (weight 0) (weight 0)
        (fun path => if (path =? "teacher.npz")%string then Some teacher_snapshot
                     else if (path =? "snapshot_iter_7")%string
                          then Some student_snapshot
                          else None).

Definition config : params.t :=
  params.mk (1 # 1000) 8 "teacher.npz"
            (fun it => (100 <=? it)%nat) (interval 2) (interval 3) (interval 5)
            (interval 1).

Definition two_gpus : args.t := args.mk [0%Z; 1%Z] 1 64 "".

Definition minus_two : args.t := args.mk [(-2)%Z] 1 64 "".

Definition resumed : args.t := args.mk [(-1)%Z] 1 64 "snapshot_iter_7".





End Sample.

(* ===================================================================== *)
(** ** The rest of the script: data split and run directory *)
(* ===================================================================== *)

(** [int(x)] for a float [x]: truncation toward zero. *)
Definition py_int (x : Q) : Z :=
  if Qle_bool 0 x then Qfloor x else Qceiling x.

(** Line 49: [int(len(dataset) * 0.9)]. *)
Definition first_size (n : nat) : Z :=
  py_int (inject_Z (Z.of_nat n) * (9 # 10)).

(** The examples of [data] at the positions [order], as a [SubDataset] over
    a permutation lists them. *)
Definition pick {A : Type} (data : list A) (order : list nat) : list A :=
  flat_map (fun i => match nth_error data i with
                     | Some x => [x]
                     | None => []
                     end) order.

(** [chainer.datasets.split_dataset(dataset, split_at, order)]; the left
    summand is the message of the [ValueError] it raises. *)
Definition split_dataset {A : Type} (data : list A) (split_at : Z)
  (order : list nat) : string + (list A * list A) :=
  if (split_at <? 0)%Z then inl "split_at must be non-negative"%string
  else if (split_at >? len data)%Z
       then inl "split_at exceeds the dataset size"%string
       else inr (pick data (firstn (Z.to_nat split_at) order),
                 pick data (skipn (Z.to_nat split_at) order)).

(** Lines 48-49: [split_dataset_random(dataset, int(len(dataset) * 0.9),
    params.split_seed)], where [order] is the permutation that the seed
    draws. *)
Definition split_train_valid {A : Type} (dataset : list A) (order : list nat)
  : string + (list A * list A) :=
  split_dataset dataset (first_size (List.length dataset)) order.

Definition starts_with_sep (s : string) : bool :=
  match s with
  | String c _ => Ascii.eqb c "/"%char
  | EmptyString => false
  end.

Fixpoint ends_with_sep (s : string) : bool :=
  match s with
  | EmptyString => false
  | String c EmptyString => Ascii.eqb c "/"%char
  | String _ s' => ends_with_sep s'
  end.

(** [os.path.join(a, b)] on POSIX: an absolute [b] replaces [a]; otherwise
    [b] is appended, after a separator unless [a] is empty or ends in one. *)
Definition path_join (a b : string) : string :=
  if starts_with_sep b then b
  else if match a with
          | EmptyString => true
          | _ => ends_with_sep a
          end
       then (a ++ b)%string
       else (a ++ "/" ++ b)%string.

(** Lines 54-60: source and destination of each copy into the run directory
    [result], where [file] is the script's [__file__]. *)
Definition copies (result file : string) : list (string * string) :=
  [ (file, path_join result file);
    ("utils.py", path_join result "utils.py");
    ("params.py", path_join result "params.py");
    ("teacher_params.py", path_join result "teacher_params.py");
    ("generate.py", path_join result "generate.py");
    ("net.py", path_join result "net.py");
    ("WaveNet", path_join result "WaveNet") ]%string.

(** The step counts of the update rules of a link, by parameter name. *)
Definition rule_counts (l : Link) : list (string * option nat) :=
  map (fun np => (fst np, option_map rule_t (update_rule (snd np)))) l.


(** The name under which the snapshot extension writes at iteration [it]. *)
Definition snapshot_name (it : nat) : string :=
  ("snapshot_iter_" ++ str it)%string.

Definition is_snapshot (e : Entry) : bool :=
  match extension e with
  | snapshot => true
  | _ => false
  end.

(** The extension registered at position [i], if any, neither anneals nor
    writes a snapshot. *)
Definition plain_at (es : list Entry) (i : nat) : Prop :=
  match nth_error es i with
  | Some e => is_shift e = false /\ is_snapshot e = false
  | None => True
  end.




(** The extensions the script registers after the ExponentialShift. *)
Definition script_rest (p : params.t) (valid_iter : Iterator) (device : Z)
  : list Entry :=
  tl (build_extensions p valid_iter device).

(** Further sample data. *)
Module More.

(** A model whose teacher gradient is large and whose student gradient is
    small. *)
Definition lopsided : DistilModel :=
  mkModel [] [("W"%string, mkParam [0%R] [100%R] None)]
          [("W"%string, mkParam [0%R] [1%R] None)].

Definition three_gpus : args.t := args.mk [2; 0; 5]%Z 1 64 "".

(** Stop after four iterations, snapshot at every second one. *)
Definition config : params.t :=
  params.mk (1 # 1000) 8 "teacher.npz"
            (fun it => (4 <=? it)%nat) (interval 2) (interval 3) (interval 2)
            (interval 1).

End More.

(* ===================================================================== *)
(** ** Properties of the script's configuration *)
(* ===================================================================== *)

Lemma len_pos (A : Type) (l : list A) : l <> [] -> (0 < len l)%Z.
Proof.
  destruct l as [|x l']; [congruence|].
  intros _. unfold len. simpl List.length. lia.
Qed.

Lemma truediv_ok (x : Q) (n : Z) : (0 < n)%Z -> truediv x n = Ok (x / inject_Z n)%Q.
Proof.
  intros Hn. unfold truediv.
  destruct (Z.eqb_spec n 0); [lia | reflexivity].
Qed.

Lemma floordiv_ok (x n : Z) : (0 < n)%Z -> floordiv x n = Ok (x / n)%Z.
Proof.
  intros Hn. unfold floordiv.
  destruct (Z.eqb_spec n 0); [lia | reflexivity].
Qed.

Lemma build_optimizer_ok (a : args.t) (p : params.t) (m : DistilModel) :
  args.gpus a <> [] ->
  build_optimizer a p m =
  Ok (mkOptimizer
        (mkHyper (params.lr p / inject_Z (len (args.gpus a)))
                 (9 # 10) (999 # 1000) (1 # 100000000))
        0 (Some []) [GradientClipping 10],
      mkModel (disable_update (setup_link (encoder m)))
              (disable_update (setup_link (teacher m)))
              (setup_link (student m))).
Proof.
  intros Hg. unfold build_optimizer.
  rewrite (truediv_ok _ _ (len_pos _ _ Hg)). reflexivity.
Qed.

Lemma build_optimizer_empty (a : args.t) (p : params.t) (m : DistilModel) :
  args.gpus a = [] -> build_optimizer a p m = Raise ZeroDivisionError.
Proof. intros Hg. unfold build_optimizer. rewrite Hg. reflexivity. Qed.

(** C3: for a device list of length D >= 1 the optimizer is created with
    alpha equal to the configured learning rate divided by D, so that D times
    the value handed over gives back the configured rate. *)
Theorem learning_rate_divided_by_devices
  (a : args.t) (p : params.t) (m : DistilModel) :
  args.gpus a <> [] ->
  exists o m',
    build_optimizer a p m = Ok (o, m') /\
    alpha (hyper o) == params.lr p / inject_Z (len (args.gpus a)) /\
    alpha (hyper o) * inject_Z (len (args.gpus a)) == params.lr p.
Proof.
  intros Hg. eexists. eexists. split; [apply (build_optimizer_ok a p m Hg)|].
  cbn [hyper alpha fst]. split; [reflexivity|].
  field. pose proof (len_pos _ _ Hg) as Hpos.
  intros H0. apply (Qeq_bool_neq (inject_Z (len (args.gpus a))) 0); [|exact H0].
  unfold Qeq_bool. simpl. destruct (len (args.gpus a)); [lia | reflexivity | lia].
Qed.

Lemma learning_rate_divided_by_devices_witness :
  exists o m',
    build_optimizer Sample.two_gpus Sample.config
                    (mkModel (Sample.weight 1) (Sample.weight 2) (Sample.weight 0))
    = Ok (o, m') /\
    alpha (hyper o) == (1 # 1000) / inject_Z 2 /\
    alpha (hyper o) * inject_Z 2 == 1 # 1000.
Proof.
  apply (learning_rate_divided_by_devices Sample.two_gpus Sample.config).
  simpl. discriminate.
Defined.

Lemma list_eqb_eq (l1 l2 : list Z) : list_eqb l1 l2 = true <-> l1 = l2.
Proof.
  revert l2. induction l1 as [|x l1 IH]; intros [|y l2]; simpl;
    try (split; [discriminate | congruence]); [tauto|].
  rewrite andb_true_iff, Z.eqb_eq, IH. split.
  - intros [-> ->]. reflexivity.
  - intros H. injection H as -> ->. auto.
Qed.

(** The script takes the CPU path exactly for the device list [[-1]]. *)
Lemma standard_updater_iff (a : args.t) (it : Iterator) (c : Cuda) :
  args.gpus a <> [] ->
  (build_updater a it c = Ok (StandardUpdater it, c)) <-> args.gpus a = [(-1)%Z].
Proof.
  intros Hne. unfold build_updater.
  destruct (list_eqb (args.gpus a) [(-1)%Z]) eqn:E.
  - apply list_eqb_eq in E. tauto.
  - split.
    + destruct (args.gpus a) as [|g gs]; [congruence|]. simpl. discriminate.
    + intros H. apply list_eqb_eq in H. congruence.
Qed.

(** C8, at the device list [[-2]]: a single negative identifier other than
    -1 takes the GPU path.  The CUDA workspace and autotune settings are
    applied, device -2 is asked for, and the updater is the ParallelUpdater
    over the device map [{'main': -2}], not the StandardUpdater. *)
Theorem single_negative_device_takes_gpu_path (it : Iterator) :
  configure_cuda Sample.minus_two = mkCuda (Some 1073741824%Z) true None /\
  build_updater Sample.minus_two it (configure_cuda Sample.minus_two) =
  Ok (ParallelUpdater it [("main"%string, (-2)%Z)],
      mkCuda (Some 1073741824%Z) true (Some (-2)%Z)).
Proof. split; reflexivity. Qed.

Lemma build_iterators_ok (a : args.t) (p : params.t) :
  args.gpus a <> [] ->
  build_iterators a p =
  Ok (if (args.process a * args.prefetch a >? 1)%Z
      then (MultiprocessIterator TrainSplit (params.batchsize p) true true
                                 (args.process a) (args.prefetch a),
            MultiprocessIterator ValidSplit
                                 (params.batchsize p / len (args.gpus a))
                                 false false (args.process a) (args.prefetch a))
      else (SerialIterator TrainSplit (params.batchsize p) true true,
            SerialIterator ValidSplit (params.batchsize p / len (args.gpus a))
                           false false)).
Proof.
  intros Hg. unfold build_iterators.
  rewrite (floordiv_ok _ _ (len_pos _ _ Hg)).
  destruct (args.process a * args.prefetch a >? 1)%Z; reflexivity.
Qed.

(** C9: both iterators are MultiprocessIterators exactly when
    process * prefetch > 1, and SerialIterators otherwise; with the defaults
    process = 1 and prefetch = 64 they are MultiprocessIterators. *)
Theorem multiprocess_iff_product_above_one (a : args.t) (p : params.t) :
  args.gpus a <> [] ->
  exists train_iter valid_iter,
    build_iterators a p = Ok (train_iter, valid_iter) /\
    (is_multiprocess train_iter = true <->
     (args.process a * args.prefetch a > 1)%Z) /\
    (is_multiprocess valid_iter = true <->
     (args.process a * args.prefetch a > 1)%Z) /\
    (args.process a = 1%Z -> args.prefetch a = 64%Z ->
     is_multiprocess train_iter = true /\ is_multiprocess valid_iter = true).
Proof.
  intros Hg. rewrite (build_iterators_ok a p Hg).
  destruct (Z.gtb_spec (args.process a * args.prefetch a) 1) as [Hgt|Hle];
    eexists; eexists; (split; [reflexivity|]); simpl.
  - repeat split; auto; lia.
  - repeat split; try discriminate; try lia;
      intros H1 H2; rewrite H1, H2 in Hle; lia.
Qed.

Lemma multiprocess_iff_product_above_one_witness :
  exists train_iter valid_iter,
    build_iterators args.default Sample.config = Ok (train_iter, valid_iter) /\
    (is_multiprocess train_iter = true <-> (1 * 64 > 1)%Z) /\
    (is_multiprocess valid_iter = true <-> (1 * 64 > 1)%Z) /\
    (1%Z = 1%Z -> 64%Z = 64%Z ->
     is_multiprocess train_iter = true /\ is_multiprocess valid_iter = true).
Proof.
  apply (multiprocess_iff_product_above_one args.default Sample.config).
  simpl. discriminate.
Defined.

(** C10: for a device list of length D >= 1 the validation iterator gets the
    batch size [batchsize // D] and the training iterator the full
    [batchsize]; for D = 1 the two agree, and for a batch size below D (and
    not negative) the validation batch size is 0. *)
Theorem validation_batch_size (a : args.t) (p : params.t) :
  args.gpus a <> [] ->
  exists train_iter valid_iter,
    build_iterators a p = Ok (train_iter, valid_iter) /\
    batch_size_of valid_iter = (params.batchsize p / len (args.gpus a))%Z /\
    batch_size_of train_iter = params.batchsize p /\
    (len (args.gpus a) = 1%Z ->
     batch_size_of valid_iter = batch_size_of train_iter) /\
    ((0 <= params.batchsize p < len (args.gpus a))%Z ->
     batch_size_of valid_iter = 0%Z).
Proof.
  intros Hg. rewrite (build_iterators_ok a p Hg).
  destruct (args.process a * args.prefetch a >? 1)%Z;
    eexists; eexists; (split; [reflexivity|]); simpl;
    (repeat split; auto;
     [ intros ->; apply Z.div_1_r | intros H; apply Z.div_small; exact H ]).
Qed.

Lemma validation_batch_size_witness :
  exists train_iter valid_iter,
    build_iterators Sample.two_gpus Sample.config = Ok (train_iter, valid_iter) /\
    batch_size_of valid_iter = (8 / 2)%Z /\
    batch_size_of train_iter = 8%Z /\
    (2%Z = 1%Z -> batch_size_of valid_iter = batch_size_of train_iter) /\
    ((0 <= 8 < 2)%Z -> batch_size_of valid_iter = 0%Z).
Proof.
  apply (validation_batch_size Sample.two_gpus Sample.config).
  simpl. discriminate.
Defined.

(* ===================================================================== *)
(** ** Gradient clipping *)
(* ===================================================================== *)

Section Clipping.

Local Open Scope R_scope.

Lemma sqnorm_nonneg (a : array) : 0 <= sqnorm a.
Proof.
  induction a as [|x a IH]; simpl; [lra|].
  pose proof (Rle_0_sqr x) as Hx. unfold Rsqr in Hx. lra.
Qed.

Lemma sum_sqnorm_nonneg (gs : list array) : 0 <= sum_sqnorm gs.
Proof.
  induction gs as [|a gs IH]; simpl; [lra|].
  pose proof (sqnorm_nonneg a). lra.
Qed.



Lemma global_norm_nonneg (gs : list array) : 0 <= global_norm gs.
Proof. apply sqrt_pos. Qed.


Lemma grads_qualify (c : Child) (l : Link) : grads (qualify c l) = grads l.
Proof. unfold grads, qualify. rewrite map_map. reflexivity. Qed.

Lemma grads_app (l1 l2 : Link) : grads (l1 ++ l2) = grads l1 ++ grads l2.
Proof. apply map_app. Qed.

Lemma grads_scaled (r : R) (l : Link) :
  grads (map_params (scale_grad r) l) = map (scale r) (grads l).
Proof. unfold grads, map_params. rewrite !map_map. reflexivity. Qed.


(** What the clipping hook does to the global norm. *)
Lemma clip_rate_spec (threshold : R) (gs : list array) :
  0 < threshold ->
  match clip_rate threshold gs with
  | Some rate => threshold < global_norm gs /\ rate = threshold / global_norm gs
  | None => global_norm gs <= threshold
  end.
Proof.
  intros Ht. unfold clip_rate.
  pose proof (global_norm_nonneg gs) as Hn.
  destruct (Req_dec_T (global_norm gs) 0) as [H0|H0]; [lra|].
  assert (Hpos : 0 < global_norm gs) by lra.
  destruct (Rlt_dec (threshold / global_norm gs) 1) as [Hlt|Hge].
  - split; [|reflexivity].
    apply (Rmult_lt_compat_r (global_norm gs)) in Hlt; [|exact Hpos].
    unfold Rdiv in Hlt. rewrite Rmult_assoc, Rinv_l in Hlt by exact H0. lra.
  - apply Rnot_lt_le in Hge.
    apply (Rmult_le_compat_r (global_norm gs)) in Hge; [|lra].
    unfold Rdiv in Hge. rewrite Rmult_assoc, Rinv_l in Hge by exact H0. lra.
Qed.


End Clipping.


(* ===================================================================== *)
(** ** What an optimizer step does to a link *)
(* ===================================================================== *)

Lemma is_updated_flag (p p' : Param) :
  option_map enabled (update_rule p') = option_map enabled (update_rule p) ->
  is_updated p' = is_updated p.
Proof.
  unfold is_updated.
  destruct (update_rule p') as [r'|], (update_rule p) as [r|]; simpl;
    congruence.
Qed.

Lemma step_rel_refl (p : Param) : step_rel p p.
Proof. split; auto. Qed.

Lemma step_rel_trans (p q r : Param) : step_rel p q -> step_rel q r -> step_rel p r.
Proof.
  intros [Hf1 Hd1] [Hf2 Hd2]. split; [congruence|].
  intros Hoff. destruct (Hd1 Hoff) as [Hda Hru].
  assert (Hq : is_updated q = false)
    by (rewrite (is_updated_flag p q Hf1); exact Hoff).
  destruct (Hd2 Hq). split; congruence.
Qed.

Lemma pointwise_refl (l : Link) : pointwise step_rel l l.
Proof.
  induction l as [|np l IH]; constructor; auto using step_rel_refl.
Qed.

Lemma pointwise_trans (l1 l2 l3 : Link) :
  pointwise step_rel l1 l2 -> pointwise step_rel l2 l3 -> pointwise step_rel l1 l3.
Proof.
  intros H12. revert l3.
  induction H12 as [|a b l1 l2 [Hn Hr] _ IH]; intros l3 H23;
    inversion H23 as [|b' c l2' l3' [Hn' Hr'] Hrest]; subst; constructor.
  - split; [congruence | eapply step_rel_trans; eauto].
  - apply IH. assumption.
Qed.

Lemma pointwise_map (f : string * Param -> string * Param) (l : Link) :
  (forall np, fst (f np) = fst np /\ step_rel (snd np) (snd (f np))) ->
  pointwise step_rel l (map f l).
Proof.
  intros Hf. induction l as [|np l IH]; simpl; constructor; auto.
Qed.

Lemma pointwise_skeleton (l l' : Link) :
  pointwise step_rel l l' -> skeleton l' = skeleton l.
Proof.
  induction 1 as [|np np' l l' [Hn [Hf _]] _ IH]; simpl; [reflexivity|].
  rewrite Hn, Hf, IH. reflexivity.
Qed.

Lemma pointwise_frozen (l l' : Link) :
  pointwise step_rel l l' -> frozen_off l ->
  values l' = values l /\ rules l' = rules l /\ frozen_off l'.
Proof.
  induction 1 as [|np np' l l' [Hn [Hf Hd]] _ IH]; intros Hoff.
  - repeat split. constructor.
  - inversion Hoff as [|x y Hnp Hl]; subst.
    destruct (IH Hl) as (Hv & Hr & Ho). destruct (Hd Hnp) as [Hda Hru].
    simpl. rewrite Hn, Hda, Hru, Hv, Hr. repeat split.
    constructor; [|exact Ho].
    rewrite (is_updated_flag _ _ Hf). exact Hnp.
Qed.

Lemma child_map_links (f : Child -> Link -> Link) (c : Child) (m : DistilModel) :
  child c (map_links f m) = f c (child c m).
Proof. destruct c; reflexivity. Qed.

Lemma child_map_target (path : LinkPath) (f : Link -> Link) (c : Child)
  (m : DistilModel) :
  child c (map_target path f m) = if in_target path c then f (child c m) else child c m.
Proof. unfold map_target. apply child_map_links. Qed.

Lemma set_grads_pointwise (g : Child -> string -> array) (c : Child)
  (m : DistilModel) :
  pointwise step_rel (child c m) (child c (set_grads g m)).
Proof.
  unfold set_grads. rewrite child_map_links.
  apply pointwise_map. intros np. split; [reflexivity|].
  split; [reflexivity | auto].
Qed.

Lemma map_target_pointwise (path : LinkPath) (f : Param -> Param) (c : Child)
  (m : DistilModel) :
  (forall p, step_rel p (f p)) ->
  pointwise step_rel (child c m) (child c (map_target path (map_params f) m)).
Proof.
  intros Hf. rewrite child_map_target.
  destruct (in_target path c); [|apply pointwise_refl].
  unfold map_params. apply pointwise_map. intros np. split; [reflexivity|].
  apply Hf.
Qed.

Lemma scale_grad_rel (rate : R) (p : Param) : step_rel p (scale_grad rate p).
Proof. split; [reflexivity | auto]. Qed.

Lemma call_hook_pointwise (path : LinkPath) (h : Hook) (c : Child)
  (m : DistilModel) :
  pointwise step_rel (child c m) (child c (call_hook path m h)).
Proof.
  destruct h as [threshold]. unfold call_hook.
  destruct (clip_rate threshold (target_grads path m)) as [rate|].
  - apply map_target_pointwise. apply scale_grad_rel.
  - apply pointwise_refl.
Qed.

Lemma call_hooks_pointwise (o : Optimizer) (path : LinkPath) (c : Child)
  (m : DistilModel) :
  pointwise step_rel (child c m) (child c (call_hooks o path m)).
Proof.
  unfold call_hooks. generalize (hooks o) as hs. intros hs. revert m.
  induction hs as [|h hs IH]; intros m; simpl; [apply pointwise_refl|].
  eapply pointwise_trans; [apply (call_hook_pointwise path h c m) | apply IH].
Qed.

Section StepFacts.

Context {net : Net}.

Lemma param_update_rel (h : Hyper) (p : Param) : step_rel p (param_update h p).
Proof.
  unfold param_update, step_rel, is_updated.
  destruct (update_rule p) as [r|] eqn:Hr; [|rewrite Hr; auto].
  destruct (enabled r) eqn:He; simpl.
  - split; [rewrite He; reflexivity | discriminate].
  - rewrite Hr. auto.
Qed.

Lemma updated_model_pointwise (u : Updater) (b : Batch) (o : Optimizer)
  (path : LinkPath) (m : DistilModel) (c : Child) :
  pointwise step_rel (child c m) (child c (updated_model u b o path m)).
Proof.
  unfold updated_model.
  eapply pointwise_trans; [apply set_grads_pointwise|].
  eapply pointwise_trans; [apply call_hooks_pointwise|].
  apply map_target_pointwise. apply param_update_rel.
Qed.

(** **** Extensions *)

Lemma call_extension_model (i : nat) (e : Entry) (tr : Trainer) :
  the_model (call_extension i e tr) = the_model tr.
Proof. destruct e as [ext trig]. destruct ext; reflexivity. Qed.

Lemma call_extension_core (i : nat) (e : Entry) (tr : Trainer) :
  is_shift e = false -> core (call_extension i e tr) = core tr.
Proof.
  destruct e as [ext trig]. destruct ext; try reflexivity. discriminate.
Qed.

Lemma invoke_core (tr : Trainer) (i : nat) :
  no_shift_at (extensions tr) i -> core (invoke tr i) = core tr.
Proof.
  unfold no_shift_at, invoke.
  destruct (nth_error (extensions tr) i) as [e|]; [|reflexivity].
  intros He. destruct (entry_trigger e (iteration tr)); [|reflexivity].
  apply call_extension_core. exact He.
Qed.

Lemma core_extensions (tr tr' : Trainer) :
  core tr' = core tr -> extensions tr' = extensions tr.
Proof. unfold core. congruence. Qed.

Lemma fold_invoke_core (l : list nat) (tr : Trainer) :
  (forall i, In i l -> no_shift_at (extensions tr) i) ->
  core (fold_left invoke l tr) = core tr.
Proof.
  revert tr. induction l as [|i l IH]; intros tr Hl; simpl; [reflexivity|].
  assert (Hi : core (invoke tr i) = core tr)
    by (apply invoke_core; apply Hl; left; reflexivity).
  rewrite IH; [exact Hi|].
  intros j Hj. rewrite (core_extensions _ _ Hi). apply Hl. right. exact Hj.
Qed.

Lemma no_shift_tail (e0 : Entry) (rest : list Entry) (i : nat) :
  Forall (fun e => is_shift e = false) rest ->
  In i (seq 1 (List.length rest)) -> no_shift_at (e0 :: rest) i.
Proof.
  intros Hrest Hi. apply in_seq in Hi. unfold no_shift_at.
  destruct i as [|i]; [lia|]. simpl.
  destruct (nth_error rest i) as [e|] eqn:He; [|exact I].
  apply nth_error_In in He. rewrite Forall_forall in Hrest. auto.
Qed.

End StepFacts.

(* ===================================================================== *)
(** ** One pass of the training loop *)
(* ===================================================================== *)

Section LoopFacts.

Context {net : Net}.

Lemma step_spec (tr : Trainer) (b : Batch) (s : Shift) (trig : Trigger)
  (rest : list Entry) (path : LinkPath) :
  extensions tr = mkEntry (ExponentialShift s) trig :: rest ->
  Forall (fun e => is_shift e = false) rest ->
  target (optimizer tr) = Some path ->
  exists tr',
    step tr b = Ok tr' /\
    core tr' =
    (updated_model (updater tr) b (optimizer tr) path (the_model tr),
     mkOptimizer (snd (shifted trig (S (iteration tr)) s (hyper (optimizer tr))))
                 (S (opt_t (optimizer tr))) (Some path) (hooks (optimizer tr)),
     updater tr, S (iteration tr),
     mkEntry (ExponentialShift
                (fst (shifted trig (S (iteration tr)) s (hyper (optimizer tr)))))
             trig :: rest).
Proof.
  intros Hext Hrest Htarget.
  unfold step, update, optimizer_update. rewrite Htarget. cbn [bind fst snd].
  eexists. split; [reflexivity|].
  unfold run_extensions. cbn [extensions]. rewrite Hext.
  cbn [List.length seq fold_left].
  assert (Hfirst :
    core (invoke
            (mkTrainer
               (map_target path (map_params (param_update (hyper (optimizer tr))))
                  (call_hooks (optimizer tr) path
                     (set_grads (backward (updater tr) (the_model tr) b)
                        (the_model tr))))
               (mkOptimizer (hyper (optimizer tr)) (S (opt_t (optimizer tr)))
                  (Some path) (hooks (optimizer tr)))
               (updater tr) (S (iteration tr)) (stop_trigger tr)
               (mkEntry (ExponentialShift s) trig :: rest)
               (mkObservation (Some (forward (the_model tr) b)) None None)
               (log tr) (written tr) (cuda tr)) 0) =
    (updated_model (updater tr) b (optimizer tr) path (the_model tr),
     mkOptimizer (snd (shifted trig (S (iteration tr)) s (hyper (optimizer tr))))
                 (S (opt_t (optimizer tr))) (Some path) (hooks (optimizer tr)),
     updater tr, S (iteration tr),
     mkEntry (ExponentialShift
                (fst (shifted trig (S (iteration tr)) s (hyper (optimizer tr)))))
             trig :: rest)).
  { unfold invoke, shifted. cbn [extensions nth_error entry_trigger iteration].
    destruct (trig (S (iteration tr))); reflexivity. }
  rewrite fold_invoke_core; [exact Hfirst|].
  intros i Hi.
  assert (Hes := Hfirst). unfold core in Hes.
  injection Hes as _ _ _ _ Hes. rewrite Hes.
  apply no_shift_tail; assumption.
Qed.

Lemma fold_initialize_id (l : list nat) (tr : Trainer) :
  (forall i, In i l -> no_shift_at (extensions tr) i) ->
  fold_left initialize_at l (Ok tr) = Ok tr.
Proof.
  induction l as [|i l IH]; intros Hl; cbn [fold_left]; [reflexivity|].
  assert (Hi : initialize_at (Ok tr) i = Ok tr).
  { specialize (Hl i (or_introl eq_refl)). unfold no_shift_at in Hl.
    unfold initialize_at. cbn [bind].
    destruct (nth_error (extensions tr) i) as [e|]; [|reflexivity].
    unfold is_shift in Hl. destruct (extension e); try reflexivity.
    discriminate. }
  rewrite Hi. apply IH. intros j Hj. apply Hl. right. exact Hj.
Qed.

Lemma initialize_spec (tr : Trainer) (s : Shift) (trig : Trigger)
  (rest : list Entry) (sh : Shift * Hyper) :
  extensions tr = mkEntry (ExponentialShift s) trig :: rest ->
  Forall (fun e => is_shift e = false) rest ->
  shift_initialize s (hyper (optimizer tr)) = Ok sh ->
  initialize tr =
  Ok (with_extensions (mkEntry (ExponentialShift (fst sh)) trig :: rest)
        (with_optimizer (with_hyper (snd sh) (optimizer tr)) tr)).
Proof.
  intros Hext Hrest Hsh. unfold initialize. rewrite Hext.
  cbn [List.length seq fold_left].
  unfold initialize_at at 2. cbn [bind]. rewrite Hext.
  cbn [nth_error extension entry_trigger]. rewrite Hsh. cbn [bind set_nth].
  apply fold_initialize_id. intros i Hi. cbn [extensions with_extensions].
  apply no_shift_tail; assumption.
Qed.

End LoopFacts.

(* ===================================================================== *)
(** ** What the script hands to [trainer.run()] *)
(* ===================================================================== *)

Lemma mapM_Forall2 (A B : Type) (f : A -> Exc B) (l : list A) (l' : list B) :
  mapM f l = Ok l' -> Forall2 (fun a b => f a = Ok b) l l'.
Proof.
  revert l'. induction l as [|a l IH]; simpl; intros l' H.
  - injection H as <-. constructor.
  - destruct (f a) as [b|] eqn:Hf; [|discriminate]. simpl in H.
    destruct (mapM f l) as [bs|] eqn:Hm; [|discriminate]. simpl in H.
    injection H as <-. constructor; auto.
Qed.

Lemma load_param_spec (f : Npz) (path : string) (np np' : string * Param) :
  load_param f path np = Ok np' ->
  fst np' = fst np /\ update_rule (snd np') = update_rule (snd np) /\
  lookup (path ++ fst np) f = Some (NArray (data (snd np'))).
Proof.
  unfold load_param, read_array.
  destruct (lookup (path ++ fst np) f) as [[a| | |]|]; simpl; try discriminate.
  intros H. injection H as <-. auto.
Qed.

Lemma load_rule_spec (f : Npz) (path : string) (np np' : string * Param) :
  load_rule f path np = Ok np' ->
  fst np' = fst np /\ data (snd np') = data (snd np) /\
  option_map enabled (update_rule (snd np')) =
  option_map enabled (update_rule (snd np)).
Proof.
  unfold load_rule. destruct (update_rule (snd np)) as [r|] eqn:Hr.
  - destruct (read_int f (path ++ fst np ++ "/t")); [|discriminate].
    destruct (read_arrays f (path ++ fst np ++ "/state")); [|discriminate].
    simpl. intros H. injection H as <-. auto.
  - intros H. injection H as <-. rewrite Hr. auto.
Qed.

Lemma load_link_skeleton (f : Npz) (path : string) (l l' : Link) :
  load_link f path l = Ok l' -> skeleton l' = skeleton l.
Proof.
  intros H. apply mapM_Forall2 in H.
  induction H as [|np np' l l' Hnp _ IH]; simpl; [reflexivity|].
  destruct (load_param_spec _ _ _ _ Hnp) as (Hn & Hr & _).
  rewrite Hn, Hr, IH. reflexivity.
Qed.

Lemma load_rules_skeleton (f : Npz) (path : string) (l l' : Link) :
  load_rules f path l = Ok l' -> skeleton l' = skeleton l.
Proof.
  intros H. apply mapM_Forall2 in H.
  induction H as [|np np' l l' Hnp _ IH]; simpl; [reflexivity|].
  destruct (load_rule_spec _ _ _ _ Hnp) as (Hn & _ & Hr).
  rewrite Hn, Hr, IH. reflexivity.
Qed.

Lemma load_child_skeleton (f : Npz) (o : Optimizer) (c : Child)
  (m : DistilModel) (l' : Link) :
  load_child f o c m = Ok l' -> skeleton l' = skeleton (child c m).
Proof.
  unfold load_child. destruct (targets o c).
  - destruct (load_rules f (rule_key c) (child c m)) as [l1|] eqn:H1;
      [|discriminate]. simpl. intros H2.
    rewrite (load_link_skeleton _ _ _ _ H2). eapply load_rules_skeleton; eauto.
  - simpl. apply load_link_skeleton.
Qed.

Lemma flags_skeleton (b : bool) (l l' : Link) :
  skeleton l' = skeleton l -> flags_are b l -> flags_are b l'.
Proof.
  revert l'. induction l as [|np l IH]; intros [|np' l'] Hs Hoff;
    try discriminate; [constructor|].
  simpl in Hs. injection Hs as Hn Hf Hs.
  inversion Hoff as [|x y Hnp Hl]; subst. constructor; [|apply IH; assumption].
  congruence.
Qed.

Lemma flags_disable (l : Link) : flags_are false (disable_update (setup_link l)).
Proof.
  induction l as [|np l IH]; simpl; constructor; [reflexivity | exact IH].
Qed.

Lemma flags_setup (l : Link) : flags_are true (setup_link l).
Proof.
  induction l as [|np l IH]; simpl; constructor; [reflexivity | exact IH].
Qed.

Lemma flags_off_frozen (l : Link) : flags_are false l -> frozen_off l.
Proof.
  induction 1 as [|np l Hnp _ IH]; constructor; [|exact IH].
  unfold is_updated. destruct (update_rule (snd np)) as [r|]; [|reflexivity].
  simpl in Hnp. congruence.
Qed.

Lemma build_spec (a : args.t) (p : params.t) (env : Env) (tr : Trainer) :
  build a p env = Ok tr ->
  exists enc tea valid_iter device,
    args.gpus a <> [] /\
    load_npz env (params.model p) (new_encoder env)
             "updater/model:main/encoder/" = Ok enc /\
    load_npz env (params.model p) (new_teacher env)
             "updater/model:main/decoder/" = Ok tea /\
    the_model tr = mkModel (disable_update (setup_link enc))
                           (disable_update (setup_link tea))
                           (setup_link (new_student env)) /\
    optimizer tr =
    mkOptimizer (mkHyper (params.lr p / inject_Z (len (args.gpus a)))
                         (9 # 10) (999 # 1000) (1 # 100000000))
                0 (Some []) [GradientClipping 10] /\
    iteration tr = 0%nat /\
    extensions tr = build_extensions p valid_iter device.
Proof.
  unfold build, build_model. intros H.
  destruct (load_npz env (params.model p) (new_encoder env) _) as [enc|];
    [|discriminate].
  destruct (load_npz env (params.model p) (new_teacher env) _) as [tea|];
    [|discriminate].
  cbn [bind] in H.
  destruct (args.gpus a) as [|g gs] eqn:Hg.
  - rewrite (build_optimizer_empty a p _ Hg) in H. discriminate.
  - assert (Hne : args.gpus a <> []) by (rewrite Hg; discriminate).
    rewrite (build_optimizer_ok a p _ Hne) in H.
    rewrite (build_iterators_ok a p Hne) in H. cbn [bind fst snd] in H.
    destruct (build_updater a _ (configure_cuda a)) as [uc|]; [|discriminate].
    rewrite Hg in H. cbn [bind item0] in H. injection H as <-.
    exists enc, tea. eexists. exists g.
    rewrite <- Hg. repeat split; try reflexivity. exact Hne.
Qed.

Lemma build_extensions_shape (p : params.t) (valid_iter : Iterator) (device : Z) :
  exists rest,
    build_extensions p valid_iter device =
    mkEntry (ExponentialShift (mkShift "alpha" (1 # 2) None 0 None))
            (params.annealing_interval p) :: rest /\
    Forall (fun e => is_shift e = false) rest.
Proof.
  eexists. split; [reflexivity|]. repeat constructor.
Qed.

Lemma load_shift_rest (f : Npz) (rest : list Entry) :
  Forall (fun e => is_shift e = false) rest ->
  mapM (load_shift f) rest = Ok rest.
Proof.
  induction 1 as [|e rest He _ IH]; simpl; [reflexivity|].
  assert (H1 : load_shift f e = Ok e).
  { unfold load_shift. unfold is_shift in He.
    destruct (extension e); try reflexivity. discriminate. }
  rewrite H1, IH. reflexivity.
Qed.

(** What [deserialize] leaves as it was and what it reads. *)
Lemma deserialize_spec (f : Npz) (tr0 tr : Trainer) (s : Shift) (trig : Trigger)
  (rest : list Entry) :
  extensions tr0 = mkEntry (ExponentialShift s) trig :: rest ->
  Forall (fun e => is_shift e = false) rest ->
  deserialize f tr0 = Ok tr ->
  exists it t st last,
    read_int f "updater/iteration" = Ok it /\
    read_int f "updater/optimizer:main/t" = Ok t /\
    read_int f "extensions/ExponentialShift/_t" = Ok st /\
    read_float f "extensions/ExponentialShift/_last_value" = Ok last /\
    (forall c, load_child f (optimizer tr0) c (the_model tr0)
               = Ok (child c (the_model tr))) /\
    iteration tr = it /\
    optimizer tr = mkOptimizer (hyper (optimizer tr0)) t
                               (target (optimizer tr0)) (hooks (optimizer tr0)) /\
    extensions tr =
    mkEntry (ExponentialShift
               (mkShift (shift_attr s) (shift_rate s) (shift_init s) st last))
            trig :: rest.
Proof.
  intros Hext Hrest. unfold deserialize. rewrite Hext.
  destruct (read_int f "updater/iteration") as [it|]; [|discriminate].
  destruct (read_int f "updater/optimizer:main/t") as [t|]; [|discriminate].
  cbn [bind].
  destruct (load_child f (optimizer tr0) Encoder (the_model tr0)) as [enc|]
    eqn:Henc; [|discriminate].
  destruct (load_child f (optimizer tr0) Teacher (the_model tr0)) as [tea|]
    eqn:Htea; [|discriminate].
  destruct (load_child f (optimizer tr0) Student (the_model tr0)) as [stu|]
    eqn:Hstu; [|discriminate].
  cbn [bind mapM]. unfold load_shift at 1. cbn [extension entry_trigger].
  destruct (read_int f "extensions/ExponentialShift/_t") as [st|];
    [|discriminate].
  destruct (read_float f "extensions/ExponentialShift/_last_value") as [last|];
    [|discriminate].
  cbn [bind]. rewrite (load_shift_rest f rest Hrest). cbn [bind].
  intros H. injection H as <-.
  exists it, t, st, last. repeat split; try reflexivity.
  intros c. destruct c; assumption.
Qed.

(** The trainer that [main] returns is the one that [build] made, or that
    one after reading the snapshot. *)
Lemma main_cases (a : args.t) (p : params.t) (env : Env) (tr : Trainer) :
  main a p env = Ok tr ->
  exists tr0,
    build a p env = Ok tr0 /\
    ((truthy (args.resume a) = false /\ tr = tr0) \/
     (truthy (args.resume a) = true /\
      exists f, files env (args.resume a) = Some f /\ deserialize f tr0 = Ok tr)).
Proof.
  unfold main, resume. destruct (build a p env) as [tr0|]; [|discriminate].
  cbn [bind]. intros H. exists tr0. split; [reflexivity|].
  destruct (truthy (args.resume a)).
  - right. split; [reflexivity|]. unfold open_npz in H.
    destruct (files env (args.resume a)) as [f|]; [|discriminate].
    exists f. auto.
  - left. injection H as <-. auto.
Qed.

(** The state every run of the script starts from. *)
Lemma main_state (a : args.t) (p : params.t) (env : Env) (tr : Trainer) :
  main a p env = Ok tr ->
  target (optimizer tr) = Some [] /\
  hooks (optimizer tr) = [GradientClipping 10] /\
  alpha (hyper (optimizer tr)) = (params.lr p / inject_Z (len (args.gpus a)))%Q /\
  flags_are false (teacher (the_model tr)) /\
  flags_are false (encoder (the_model tr)) /\
  flags_are true (student (the_model tr)) /\
  exists s rest,
    extensions tr = mkEntry (ExponentialShift s) (params.annealing_interval p)
                            :: rest /\
    Forall (fun e => is_shift e = false) rest /\
    shift_attr s = "alpha"%string /\ shift_rate s = 1 # 2 /\
    shift_init s = None.
Proof.
  intros Hmain. destruct (main_cases _ _ _ _ Hmain) as (tr0 & Hb & Hcase).
  destruct (build_spec _ _ _ _ Hb)
    as (enc & tea & vi & dev & Hne & _ & _ & Hm & Ho & _ & He).
  destruct (build_extensions_shape p vi dev) as (rest & Hshape & Hrest).
  rewrite Hshape in He.
  destruct Hcase as [[_ ->] | (_ & f & _ & Hd)].
  - rewrite Hm, Ho. repeat split; try apply flags_disable; try apply flags_setup.
    eexists. exists rest. repeat split; eauto.
  - destruct (deserialize_spec _ _ _ _ _ _ He Hrest Hd)
      as (it & t & st & last & _ & _ & _ & _ & Hc & _ & Ho' & He').
    rewrite Ho', Ho. cbn [target hooks hyper alpha].
    repeat split.
    + apply (flags_skeleton false (teacher (the_model tr0))).
      * apply (load_child_skeleton f _ Teacher _ _ (Hc Teacher)).
      * rewrite Hm. apply flags_disable.
    + apply (flags_skeleton false (encoder (the_model tr0))).
      * apply (load_child_skeleton f _ Encoder _ _ (Hc Encoder)).
      * rewrite Hm. apply flags_disable.
    + apply (flags_skeleton true (student (the_model tr0))).
      * apply (load_child_skeleton f _ Student _ _ (Hc Student)).
      * rewrite Hm. apply flags_setup.
    + eexists. exists rest. split; [exact He'|]. repeat split; auto.
Qed.

(* ===================================================================== *)
(** ** Training runs *)
(* ===================================================================== *)

Section RunFacts.

Context {net : Net}.

Lemma steps_spec (bs : list Batch) :
  forall (tr : Trainer) (s : Shift) (trig : Trigger) (rest : list Entry)
         (path : LinkPath),
    extensions tr = mkEntry (ExponentialShift s) trig :: rest ->
    Forall (fun e => is_shift e = false) rest ->
    target (optimizer tr) = Some path ->
    exists tr' s',
      steps bs tr = Ok tr' /\
      extensions tr' = mkEntry (ExponentialShift s') trig :: rest /\
      target (optimizer tr') = Some path /\
      hooks (optimizer tr') = hooks (optimizer tr) /\
      iteration tr' = (iteration tr + List.length bs)%nat /\
      opt_t (optimizer tr') = (opt_t (optimizer tr) + List.length bs)%nat /\
      (forall c, pointwise step_rel (child c (the_model tr))
                                    (child c (the_model tr'))).
Proof.
  induction bs as [|b bs IH]; intros tr s trig rest path Hext Hrest Htarget.
  - exists tr, s. cbn [steps List.length]. rewrite !Nat.add_0_r.
    repeat split; auto. intros c. apply pointwise_refl.
  - destruct (step_spec tr b s trig rest path Hext Hrest Htarget)
      as (tr1 & Hstep & Hcore).
    unfold core in Hcore. injection Hcore as Hm Ho Hu Hi He.
    assert (Ht1 : target (optimizer tr1) = Some path) by (rewrite Ho; reflexivity).
    destruct (IH tr1 _ trig rest path He Hrest Ht1)
      as (tr' & s' & Hsteps & He' & Ht' & Hh' & Hi' & Hot' & Hpw).
    exists tr', s'. cbn [steps List.length]. rewrite Hstep. cbn [bind].
    split; [exact Hsteps|]. split; [exact He'|]. split; [exact Ht'|].
    split; [rewrite Hh', Ho; reflexivity|].
    split; [rewrite Hi', Hi; lia|].
    split; [rewrite Hot', Ho; cbn [opt_t]; lia|].
    intros c. eapply pointwise_trans; [|apply Hpw].
    rewrite Hm. apply updated_model_pointwise.
Qed.

Lemma shift_initialize_alpha (s : Shift) (h : Hyper) :
  shift_attr s = "alpha"%string -> shift_init s = None ->
  let v := match shift_last s with
           | Some v => v
           | None => alpha h
           end in
  shift_initialize s h =
  Ok (mkShift "alpha" (shift_rate s) (Some (alpha h)) (shift_t s) (Some v),
      mkHyper v (beta1 h) (beta2 h) (eps h)).
Proof.
  intros Ha Hi v. unfold shift_initialize. rewrite Hi, Ha. reflexivity.
Qed.

(** A run from what [main] returns completes any number of steps. *)
Lemma run_steps_spec (a : args.t) (p : params.t) (env : Env) (tr : Trainer)
  (bs : list Batch) :
  main a p env = Ok tr ->
  exists tr0 tr',
    initialize tr = Ok tr0 /\ steps bs tr0 = Ok tr' /\
    run_steps bs tr = Ok tr' /\
    the_model tr0 = the_model tr /\
    iteration tr' = (iteration tr + List.length bs)%nat /\
    opt_t (optimizer tr') = (opt_t (optimizer tr) + List.length bs)%nat /\
    (forall c, pointwise step_rel (child c (the_model tr))
                                  (child c (the_model tr'))).
Proof.
  intros Hmain.
  destruct (main_state _ _ _ _ Hmain)
    as (Ht & _ & _ & _ & _ & _ & s & rest & He & Hrest & Ha & _ & Hi).
  pose proof (shift_initialize_alpha s (hyper (optimizer tr)) Ha Hi) as Hsh.
  cbv zeta in Hsh.
  pose proof (initialize_spec tr s _ rest _ He Hrest Hsh) as Hinit.
  cbn [fst snd] in Hinit.
  match type of Hinit with _ = Ok ?t => set (tr0 := t) in * end.
  destruct (steps_spec bs tr0 _ (params.annealing_interval p) rest []
                       eq_refl Hrest Ht)
    as (tr' & s' & Hsteps & _ & _ & _ & Hit & Hot & Hpw).
  exists tr0, tr'. unfold run_steps. rewrite Hinit. cbn [bind].
  repeat split; auto.
Qed.

(** The loop with its stop trigger completes the steps of a prefix of the
    batches. *)
Lemma loop_steps (bs : list Batch) (tr : Trainer) :
  exists k, (k <= List.length bs)%nat /\ loop bs tr = steps (firstn k bs) tr.
Proof.
  revert tr. induction bs as [|b bs IH]; intros tr.
  - exists 0%nat. split; [apply Nat.le_refl | reflexivity].
  - cbn [loop]. destruct (stop_trigger tr (iteration tr)).
    + exists 0%nat. split; [apply Nat.le_0_l | reflexivity].
    + destruct (step tr b) as [tr1|e] eqn:Hs.
      * destruct (IH tr1) as (k & Hk & Hl). exists (S k).
        split; [simpl; lia|]. cbn [firstn steps]. rewrite Hs. exact Hl.
      * exists 1%nat. split; [simpl; lia|]. cbn [firstn steps]. rewrite Hs.
        reflexivity.
Qed.

(** C1: from the trainer the script hands to [trainer.run()], any N >= 1
    steps complete, and after them the values of the teacher's and of the
    encoder's parameters, and their update rules, are those before the first
    step. *)
Theorem frozen_parameters_unchanged
  (a : args.t) (p : params.t) (env : Env) (tr : Trainer) (bs : list Batch) :
  main a p env = Ok tr ->
  (1 <= List.length bs)%nat ->
  exists tr',
    run_steps bs tr = Ok tr' /\
    iteration tr' = (iteration tr + List.length bs)%nat /\
    frozen (the_model tr') = frozen (the_model tr) /\
    rules (teacher (the_model tr')) = rules (teacher (the_model tr)) /\
    rules (encoder (the_model tr')) = rules (encoder (the_model tr)).
Proof.
  intros Hmain _.
  destruct (run_steps_spec a p env tr bs Hmain)
    as (tr0 & tr' & _ & _ & Hrun & _ & Hit & _ & Hpw).
  destruct (main_state _ _ _ _ Hmain) as (_ & _ & _ & Htea & Henc & _).
  destruct (pointwise_frozen _ _ (Hpw Teacher) (flags_off_frozen _ Htea))
    as (Hv1 & Hr1 & _).
  destruct (pointwise_frozen _ _ (Hpw Encoder) (flags_off_frozen _ Henc))
    as (Hv2 & Hr2 & _).
  exists tr'. unfold frozen. cbn [child] in *.
  rewrite Hv1, Hv2. auto.
Qed.


End RunFacts.

Lemma frozen_parameters_unchanged_witness :
  exists tr tr',
    main args.default Sample.config Sample.env = Ok tr /\
    (1 <= List.length [tt; tt; tt])%nat /\
    @run_steps Sample.net [tt; tt; tt] tr = Ok tr' /\
    iteration tr' = (iteration tr + 3)%nat /\
    frozen (the_model tr') = frozen (the_model tr) /\
    rules (teacher (the_model tr')) = rules (teacher (the_model tr)) /\
    rules (encoder (the_model tr')) = rules (encoder (the_model tr)).
Proof.
  assert (Hm : exists tr, main args.default Sample.config Sample.env = Ok tr)
    by (eexists; reflexivity).
  destruct Hm as [tr Hm].
  assert (Hn : (1 <= List.length [tt; tt; tt])%nat) by (simpl; lia).
  destruct (@frozen_parameters_unchanged Sample.net args.default Sample.config
              Sample.env tr [tt; tt; tt] Hm Hn) as [tr' H].
  exists tr, tr'. split; [exact Hm|]. split; [exact Hn | exact H].
Defined.



(* ===================================================================== *)
(** ** The update target *)
(* ===================================================================== *)

Lemma filter_updated_on (l : Link) :
  flags_are true l -> filter (fun np => is_updated (snd np)) l = l.
Proof.
  induction 1 as [|np l Hnp _ IH]; simpl; [reflexivity|].
  unfold is_updated at 1. destruct (update_rule (snd np)) as [r|];
    simpl in Hnp; [|discriminate].
  injection Hnp as ->. rewrite IH. reflexivity.
Qed.

Lemma filter_updated_off (l : Link) :
  flags_are false l -> filter (fun np => is_updated (snd np)) l = [].
Proof.
  induction 1 as [|np l Hnp _ IH]; simpl; [reflexivity|].
  unfold is_updated at 1. destruct (update_rule (snd np)) as [r|];
    simpl in Hnp; [|discriminate].
  injection Hnp as ->. exact IH.
Qed.

Lemma flags_qualify (b : bool) (c : Child) (l : Link) :
  flags_are b l -> flags_are b (qualify c l).
Proof.
  unfold flags_are, qualify. rewrite Forall_map. simpl. auto.
Qed.

Lemma flag_of (b : bool) (l : Link) (n : string) (q : Param) :
  flags_are b l -> In (n, q) l ->
  exists r, update_rule q = Some r /\ enabled r = b.
Proof.
  unfold flags_are. rewrite Forall_forall. intros Hl Hin.
  specialize (Hl _ Hin). simpl in Hl.
  destruct (update_rule q) as [r|]; [|discriminate].
  exists r. simpl in Hl. split; congruence.
Qed.

(** C2, as the code has it: the optimizer is set up on the whole model, so
    its target lists the parameters of encoder, teacher and student alike.
    Every parameter of teacher and encoder has an update rule, with its flag
    switched off, and the parameters that an update writes are exactly the
    student's. *)
Theorem update_target_is_whole_model
  (a : args.t) (p : params.t) (env : Env) (tr : Trainer) :
  main a p env = Ok tr ->
  let m := the_model tr in
  target (optimizer tr) = Some [] /\
  namedparams [] m =
  qualify Encoder (encoder m) ++ qualify Teacher (teacher m)
          ++ qualify Student (student m) /\
  (forall n q, In (n, q) (encoder m ++ teacher m) ->
               exists r, update_rule q = Some r /\ enabled r = false) /\
  updated_names (namedparams [] m) = map fst (qualify Student (student m)).
Proof.
  intros Hmain m.
  destruct (main_state _ _ _ _ Hmain) as (Ht & _ & _ & Htea & Henc & Hstu & _).
  fold m in Htea, Henc, Hstu.
  assert (Hnp : namedparams [] m =
                qualify Encoder (encoder m) ++ qualify Teacher (teacher m)
                        ++ qualify Student (student m)).
  { unfold namedparams. simpl. rewrite app_nil_r. reflexivity. }
  split; [exact Ht|]. split; [exact Hnp|]. split.
  - intros n q Hin. apply in_app_or in Hin. destruct Hin as [Hin|Hin].
    + exact (flag_of false _ n q Henc Hin).
    + exact (flag_of false _ n q Htea Hin).
  - unfold updated_names. rewrite Hnp, !filter_app.
    rewrite (filter_updated_off _ (flags_qualify false Encoder _ Henc)).
    rewrite (filter_updated_off _ (flags_qualify false Teacher _ Htea)).
    rewrite (filter_updated_on _ (flags_qualify true Student _ Hstu)).
    reflexivity.
Qed.

Lemma update_target_is_whole_model_witness :
  exists tr,
    main args.default Sample.config Sample.env = Ok tr /\
    let m := the_model tr in
    target (optimizer tr) = Some [] /\
    namedparams [] m =
    qualify Encoder (encoder m) ++ qualify Teacher (teacher m)
            ++ qualify Student (student m) /\
    (forall n q, In (n, q) (encoder m ++ teacher m) ->
                 exists r, update_rule q = Some r /\ enabled r = false) /\
    updated_names (namedparams [] m) = map fst (qualify Student (student m)).
Proof.
  eexists. split; [reflexivity|].
  apply (update_target_is_whole_model args.default Sample.config Sample.env).
  reflexivity.
Defined.

(** C2 as stated fails: in the sample run the parameters listed by the
    optimizer's target include the encoder's and the teacher's, so the target
    is not the student's parameter set. *)
Lemma update_target_not_student_only :
  exists tr path,
    main args.default Sample.config Sample.env = Ok tr /\
    target (optimizer tr) = Some path /\
    map fst (namedparams path (the_model tr)) =
    ["/encoder/W"; "/teacher/W"; "/student/W"]%string /\
    map fst (namedparams path (the_model tr)) <>
    map fst (qualify Student (student (the_model tr))).
Proof.
  eexists. eexists. split; [reflexivity|]. split; [reflexivity|].
  split; [reflexivity|]. simpl. discriminate.
Qed.

(* ===================================================================== *)
(** ** The annealing schedule *)
(* ===================================================================== *)

Section Annealing.

Context {net : Net}.

Lemma steps_app (bs1 bs2 : list Batch) (tr : Trainer) :
  steps (bs1 ++ bs2) tr = (tr1 <- steps bs1 tr ;; steps bs2 tr1).
Proof.
  revert tr. induction bs1 as [|b bs1 IH]; intros tr; cbn [app steps bind].
  - reflexivity.
  - destruct (step tr b) as [tr1|e]; cbn [bind]; [apply IH | reflexivity].
Qed.




End Annealing.


(* ===================================================================== *)
(** ** Keys of a snapshot *)
(* ===================================================================== *)

Section Keys.

Local Open Scope string_scope.















End Keys.

(* ===================================================================== *)
(** ** Reading back what [serialize] wrote *)
(* ===================================================================== *)

Section Roundtrip.

Local Open Scope string_scope.







End Roundtrip.

Section Restore.

Local Open Scope string_scope.







End Restore.

(* ===================================================================== *)
(** ** Resuming from a snapshot *)
(* ===================================================================== *)

Section Resume.

Context {net : Net}.

Lemma names_setup (l : Link) : map fst (setup_link l) = map fst l.
Proof. unfold setup_link, map_params. rewrite map_map. reflexivity. Qed.

Lemma names_disable (l : Link) : map fst (disable_update l) = map fst l.
Proof. unfold disable_update, map_params. rewrite map_map. reflexivity. Qed.



End Resume.





(* ===================================================================== *)
(** ** Concrete runs *)
(* ===================================================================== *)

(** With the defaults the script runs on the CPU with multiprocess
    iterators, and the evaluator is the second extension. *)
Example default_run :
  exists tr,
    main args.default Sample.config Sample.env = Ok tr /\
    updater tr = StandardUpdater
                   (MultiprocessIterator TrainSplit 8 true true 1 64) /\
    cuda tr = no_cuda /\
    nth_error (extensions tr) 1 =
    Some (mkEntry (Evaluator (MultiprocessIterator ValidSplit 8 false false 1 64)
                             (-1))
                  (interval 3)) /\
    iteration tr = 0%nat.
Proof. eexists. repeat split. Qed.

(** On two devices the validation batches have half the size. *)
Example two_device_run :
  exists tr,
    main Sample.two_gpus Sample.config Sample.env = Ok tr /\
    updater tr = ParallelUpdater
                   (MultiprocessIterator TrainSplit 8 true true 1 64)
                   [("main"%string, 0%Z); ("0"%string, 1%Z)] /\
    cuda tr = mkCuda (Some 1073741824%Z) true (Some 0%Z) /\
    nth_error (extensions tr) 1 =
    Some (mkEntry (Evaluator (MultiprocessIterator ValidSplit 4 false false 1 64) 0)
                  (interval 3)).
Proof. eexists. repeat split. Qed.

(** An empty device list stops the script at the division of line 83. *)
Example no_device :
  main (args.mk [] 1 64 "") Sample.config Sample.env = Raise ZeroDivisionError.
Proof. reflexivity. Qed.

(** Without the teacher's snapshot the script stops before any training. *)
Example missing_teacher :
  main args.default Sample.config (mkEnv [] [] [] (fun _ => None))
  = Raise (IOError "teacher.npz").
Proof. reflexivity. Qed.

(** Resuming from a snapshot taken at iteration 7. *)
Example resume_from_file :
  exists tr,
    main Sample.resumed Sample.config Sample.env = Ok tr /\
    iteration tr = 7%nat /\
    opt_t (optimizer tr) = 7%nat /\
    trainable (the_model tr) = [("W"%string, [5%R])] /\
    rules (student (the_model tr)) =
    [("W"%string, Some (mkRule true 7 [[3%R]; [4%R]]))] /\
    rules (teacher (the_model tr)) = [("W"%string, Some (mkRule false 0 []))].
Proof. eexists. repeat split. Qed.

(** A snapshot that lacks a key is refused. *)
Example resume_from_teacher_file :
  main (args.mk [(-1)%Z] 1 64 "teacher.npz") Sample.config Sample.env
  = Raise (KeyError "updater/iteration").
Proof. reflexivity. Qed.

(** One worker and a prefetch depth of one give serial iterators. *)
Example serial_iterators :
  build_iterators (args.mk [(-1)%Z] 1 1 "") Sample.config
  = Ok (SerialIterator TrainSplit 8 true true,
        SerialIterator ValidSplit 8 false false).
Proof. reflexivity. Qed.

(** Three devices and a batch size of two leave the validation iterator with
    batches of size 0. *)
Example more_devices_than_batch :
  build_iterators (args.mk [0; 1; 2]%Z 1 64 "")
                  (params.mk (1 # 1000) 2 "teacher.npz" every_iteration
                             every_iteration every_iteration every_iteration
                             every_iteration)
  = Ok (MultiprocessIterator TrainSplit 2 true true 1 64,
        MultiprocessIterator ValidSplit 0 false false 1 64).
Proof. reflexivity. Qed.

(* ===================================================================== *)
(** ** The split into training and validation data *)
(* ===================================================================== *)

Lemma first_size_eq (n : nat) : first_size n = (9 * Z.of_nat n / 10)%Z.
Proof.
  unfold first_size, py_int.
  assert (Hle : Qle_bool 0 (inject_Z (Z.of_nat n) * (9 # 10)) = true).
  { apply Qle_bool_iff. unfold Qle. simpl. lia. }
  rewrite Hle. unfold Qfloor, Qmult, inject_Z. cbn [Qnum Qden].
  change (Z.pos (1 * 10)) with 10%Z. rewrite Z.mul_comm. reflexivity.
Qed.

Lemma first_size_bounds (n : nat) :
  (0 <= first_size n <= Z.of_nat n)%Z /\
  ((0 < n)%nat -> (first_size n < Z.of_nat n)%Z).
Proof.
  rewrite first_size_eq.
  pose proof (Z.div_pos (9 * Z.of_nat n) 10) as Hpos.
  pose proof (Z.mul_div_le (9 * Z.of_nat n) 10) as Hle.
  repeat split; lia.
Qed.

Lemma pick_app (A : Type) (data : list A) (l1 l2 : list nat) :
  pick data (l1 ++ l2) = pick data l1 ++ pick data l2.
Proof. apply flat_map_app. Qed.

Lemma pick_length (A : Type) (data : list A) (order : list nat) :
  (forall i, In i order -> (i < List.length data)%nat) ->
  List.length (pick data order) = List.length order.
Proof.
  induction order as [|i order IH]; intros Hin; simpl; [reflexivity|].
  rewrite length_app, IH by (intros j Hj; apply Hin; right; exact Hj).
  assert (Hi : (i < List.length data)%nat) by (apply Hin; left; reflexivity).
  apply nth_error_Some in Hi.
  destruct (nth_error data i); [reflexivity | congruence].
Qed.

Lemma pick_seq_from (A : Type) (pre data : list A) :
  pick (pre ++ data) (seq (List.length pre) (List.length data)) = data.
Proof.
  revert pre. induction data as [|x data IH]; intros pre; simpl; [reflexivity|].
  rewrite nth_error_app2, Nat.sub_diag by apply Nat.le_refl. simpl.
  f_equal. specialize (IH (pre ++ [x])).
  rewrite <- app_assoc, length_app in IH. simpl in IH.
  rewrite Nat.add_1_r in IH. exact IH.
Qed.

Lemma pick_seq (A : Type) (data : list A) :
  pick data (seq 0 (List.length data)) = data.
Proof. exact (pick_seq_from A [] data). Qed.

(** X1.  Lines 48-49.  Whatever permutation the seed draws, the split
    succeeds; the training part has floor(9n/10) of the n examples, every
    example lands in exactly one of the two parts, and a dataset that is not
    empty leaves a validation part that is not empty. *)
Theorem split_partitions_dataset
  (A : Type) (dataset : list A) (order : list nat) :
  Permutation order (seq 0 (List.length dataset)) ->
  exists train valid,
    split_train_valid dataset order = inr (train, valid) /\
    Permutation (train ++ valid) dataset /\
    Z.of_nat (List.length train) = (9 * len dataset / 10)%Z /\
    (List.length train + List.length valid = List.length dataset)%nat /\
    (dataset <> [] -> valid <> []).
Proof.
  intros Hperm. unfold split_train_valid, split_dataset.
  set (n := List.length dataset) in *.
  destruct (first_size_bounds n) as [[H0 Hn] Hlt].
  destruct (Z.ltb_spec (first_size n) 0) as [Hneg|_]; [lia|].
  destruct (Z.gtb_spec (first_size n) (len dataset)) as [Hbig|_];
    [unfold len in Hbig; fold n in Hbig; lia|].
  set (k := Z.to_nat (first_size n)).
  assert (Hk : (k <= n)%nat) by (unfold k; lia).
  assert (Hlen : List.length order = n).
  { rewrite (Permutation_length Hperm). apply length_seq. }
  assert (Hidx : forall i, In i order -> (i < n)%nat).
  { intros i Hi. apply (Permutation_in _ Hperm) in Hi.
    apply in_seq in Hi. lia. }
  assert (Htrain : List.length (pick dataset (firstn k order)) = k).
  { rewrite pick_length.
    - rewrite length_firstn. lia.
    - intros i Hi. apply Hidx. rewrite <- (firstn_skipn k order).
      apply in_or_app. left. exact Hi. }
  assert (Hvalid : List.length (pick dataset (skipn k order)) = (n - k)%nat).
  { rewrite pick_length.
    - rewrite length_skipn. lia.
    - intros i Hi. apply Hidx. rewrite <- (firstn_skipn k order).
      apply in_or_app. right. exact Hi. }
  eexists. eexists. split; [reflexivity|]. fold k.
  split; [|split; [|split]].
  - rewrite <- pick_app, firstn_skipn.
    rewrite <- (pick_seq A dataset) at 2. fold n.
    unfold pick. apply Permutation_flat_map. exact Hperm.
  - rewrite Htrain. unfold k. rewrite Z2Nat.id by lia.
    unfold len. fold n. apply first_size_eq.
  - rewrite Htrain, Hvalid. lia.
  - intros Hne Hnil.
    assert (Hpos : (0 < n)%nat).
    { unfold n. destruct dataset; [congruence | simpl; lia]. }
    rewrite Hnil in Hvalid. simpl in Hvalid.
    specialize (Hlt Hpos). unfold k in Hvalid. lia.
Qed.

Lemma split_partitions_dataset_witness :
  exists train valid,
    split_train_valid ["a"; "b"; "c"]%string [2; 0; 1]%nat = inr (train, valid) /\
    Permutation (train ++ valid) ["a"; "b"; "c"]%string /\
    Z.of_nat (List.length train) = (9 * 3 / 10)%Z /\
    (List.length train + List.length valid = 3)%nat /\
    (["a"; "b"; "c"]%string <> [] -> valid <> []).
Proof.
  apply (split_partitions_dataset string ["a"; "b"; "c"]%string [2; 0; 1]%nat).
  simpl. apply Permutation_sym.
  apply (perm_trans (l' := [0; 2; 1]%nat)).
  - apply perm_skip. apply perm_swap.
  - apply perm_swap.
Defined.

(** The sample split: two examples for training, one for validation. *)
Example split_of_three :
  split_train_valid ["a"; "b"; "c"]%string [2; 0; 1]%nat
  = inr (["c"; "a"]%string, ["b"]%string).
Proof. reflexivity. Qed.

(* ===================================================================== *)
(** ** The run directory *)
(* ===================================================================== *)

Lemma string_length_append (a b : string) :
  String.length (a ++ b) = (String.length a + String.length b)%nat.
Proof. induction a as [|c a IH]; simpl; [reflexivity | rewrite IH; reflexivity]. Qed.

Lemma path_join_same (a b : string) :
  a <> ""%string -> (path_join a b = b <-> starts_with_sep b = true).
Proof.
  intros Ha. unfold path_join.
  destruct (starts_with_sep b); [tauto|].
  split; [|discriminate]. intros H. exfalso.
  assert (Hlen : String.length a = 0%nat).
  { destruct (match a with EmptyString => true | _ => ends_with_sep a end);
      apply (f_equal String.length) in H;
      rewrite !string_length_append in H; simpl in H; lia. }
  destruct a; [congruence | discriminate].
Qed.

(** X2.  Lines 52-60.  With a run directory name that is not empty, the copy
    of the script is aimed at the script itself exactly when [__file__] is an
    absolute path; each of the six other copies has a destination different
    from its source. *)
Theorem script_copied_onto_itself_iff_absolute (result file : string) :
  result <> ""%string ->
  (snd (hd (file, file) (copies result file)) = file <->
   starts_with_sep file = true) /\
  Forall (fun sd => snd sd <> fst sd) (tl (copies result file)).
Proof.
  intros Hr. split; [apply path_join_same; exact Hr|].
  cbn [copies tl].
  repeat constructor; cbn [fst snd]; intros H;
    apply (path_join_same result _ Hr) in H; discriminate.
Qed.

Lemma script_copied_onto_itself_iff_absolute_witness :
  (snd (hd ("/home/user/train.py", "/home/user/train.py")
           (copies "2019_03_01_12_00_00" "/home/user/train.py"))
   = "/home/user/train.py" <->
   starts_with_sep "/home/user/train.py" = true)%string /\
  Forall (fun sd => snd sd <> fst sd)
         (tl (copies "2019_03_01_12_00_00" "/home/user/train.py")).
Proof.
  apply (script_copied_onto_itself_iff_absolute
           "2019_03_01_12_00_00" "/home/user/train.py").
  discriminate.
Defined.

(** Started by its bare name, the script is copied into the run directory. *)
Example copies_from_bare_name :
  copies "2019_03_01_12_00_00" "train.py" =
  [ ("train.py", "2019_03_01_12_00_00/train.py");
    ("utils.py", "2019_03_01_12_00_00/utils.py");
    ("params.py", "2019_03_01_12_00_00/params.py");
    ("teacher_params.py", "2019_03_01_12_00_00/teacher_params.py");
    ("generate.py", "2019_03_01_12_00_00/generate.py");
    ("net.py", "2019_03_01_12_00_00/net.py");
    ("WaveNet", "2019_03_01_12_00_00/WaveNet") ]%string.
Proof. reflexivity. Qed.

(* ===================================================================== *)
(** ** The device map of the ParallelUpdater *)
(* ===================================================================== *)

Lemma str_inj (i j : nat) : str i = str j -> i = j.
Proof.
  unfold str. intros H.
  apply (f_equal NilEmpty.uint_of_string) in H.
  rewrite !NilEmpty.usu in H. injection H as H.
  apply (f_equal Nat.of_uint) in H. rewrite !Unsigned.of_to in H. exact H.
Qed.

Lemma str_not_main (i : nat) : str i <> "main"%string.
Proof.
  unfold str. intros H.
  apply (f_equal NilEmpty.uint_of_string) in H.
  rewrite NilEmpty.usu in H. discriminate.
Qed.

Lemma nodup_map_str (l : list nat) : NoDup l -> NoDup (map str l).
Proof.
  induction 1 as [|i l Hi _ IH]; simpl; constructor; [|exact IH].
  intros Hin. apply in_map_iff in Hin. destruct Hin as (j & Hj & Hjl).
  apply str_inj in Hj. subst j. contradiction.
Qed.

Lemma device_names_nodup (a : args.t) : NoDup (device_names a).
Proof.
  unfold device_names. constructor.
  - intros Hin. apply in_map_iff in Hin. destruct Hin as (i & Hi & _).
    exact (str_not_main i Hi).
  - apply nodup_map_str. apply seq_NoDup.
Qed.

Lemma dict_set_fresh (A : Type) (k : string) (v : A) (d : list (string * A)) :
  ~ In k (map fst d) -> dict_set k v d = d ++ [(k, v)].
Proof.
  induction d as [|[k' v'] d IH]; simpl; intros Hk; [reflexivity|].
  destruct (String.eqb_spec k' k) as [->|_]; [tauto|].
  rewrite IH by tauto. reflexivity.
Qed.

Lemma dict_of_from (A : Type) (kvs d : list (string * A)) :
  NoDup (map fst (d ++ kvs)) ->
  fold_left (fun d kv => dict_set (fst kv) (snd kv) d) kvs d = d ++ kvs.
Proof.
  revert d. induction kvs as [|[k v] kvs IH]; intros d Hnd; simpl.
  - rewrite app_nil_r. reflexivity.
  - rewrite dict_set_fresh.
    + rewrite IH; rewrite <- app_assoc; [reflexivity | exact Hnd].
    + rewrite map_app in Hnd. simpl in Hnd.
      apply NoDup_remove_2 in Hnd. intros Hin. apply Hnd.
      apply in_or_app. left. exact Hin.
Qed.

Lemma dict_of_nodup (A : Type) (kvs : list (string * A)) :
  NoDup (map fst kvs) -> dict_of kvs = kvs.
Proof. intros Hnd. unfold dict_of. apply (dict_of_from A kvs []). exact Hnd. Qed.

Lemma combine_fst (A B : Type) (l : list A) (l' : list B) :
  List.length l = List.length l' -> map fst (combine l l') = l.
Proof.
  revert l'. induction l as [|x l IH]; intros [|y l'] H; simpl in *;
    try discriminate; [reflexivity|].
  rewrite IH by lia. reflexivity.
Qed.

Lemma combine_snd (A B : Type) (l : list A) (l' : list B) :
  List.length l = List.length l' -> map snd (combine l l') = l'.
Proof.
  revert l'. induction l as [|x l IH]; intros [|y l'] H; simpl in *;
    try discriminate; [reflexivity|].
  rewrite IH by lia. reflexivity.
Qed.

Lemma device_names_length (a : args.t) :
  args.gpus a <> [] -> List.length (device_names a) = List.length (args.gpus a).
Proof.
  intros Hne. unfold device_names. simpl. rewrite length_map, length_seq.
  destruct (args.gpus a); [congruence | simpl; lia].
Qed.

(** The GPU branch of [build_updater]. *)
Lemma build_updater_gpu
  (a : args.t) (it : Iterator) (c : Cuda) :
  args.gpus a <> [] -> args.gpus a <> [(-1)%Z] ->
  exists devices c',
    build_updater a it c = Ok (ParallelUpdater it devices, c') /\
    map snd devices = args.gpus a /\
    map fst devices = device_names a /\
    NoDup (map fst devices) /\
    item0 (args.gpus a) = Ok (hd 0%Z (args.gpus a)) /\
    lookup "main" devices = Some (hd 0%Z (args.gpus a)) /\
    device_in_use c' = Some (hd 0%Z (args.gpus a)).
Proof.
  intros Hne Hcpu. unfold build_updater.
  destruct (list_eqb (args.gpus a) [(-1)%Z]) eqn:E;
    [apply list_eqb_eq in E; contradiction|].
  pose proof (device_names_length a Hne) as Hlen.
  pose proof (device_names_nodup a) as Hnd.
  assert (Hdict : dict_of (combine (device_names a) (args.gpus a))
                  = combine (device_names a) (args.gpus a)).
  { apply dict_of_nodup. rewrite combine_fst by exact Hlen. exact Hnd. }
  rewrite Hdict.
  destruct (args.gpus a) as [|g0 gs] eqn:Hg; [congruence|].
  cbn [item0 bind hd]. eexists. eexists. split; [reflexivity|].
  rewrite <- Hg in *.
  rewrite combine_snd, combine_fst by exact Hlen.
  repeat split; try assumption.
  rewrite Hg. unfold device_names. cbn [combine lookup].
  reflexivity.
Qed.


(** X3.  Lines 103-110.  For a device list that is not empty and not [[-1]]
    the updater is a ParallelUpdater whose device map has one entry per
    listed device, in the order given: the keys are 'main', '0', '1', ...,
    all different, so that no device is lost to a repeated key, and 'main'
    is the first device, which is also the one handed to
    [get_device_from_id(...).use()]. *)
Theorem device_map_lists_every_device
  (a : args.t) (it : Iterator) (c : Cuda) :
  args.gpus a <> [] -> args.gpus a <> [(-1)%Z] ->
  exists devices c',
    build_updater a it c = Ok (ParallelUpdater it devices, c') /\
    map snd devices = args.gpus a /\
    map fst devices = device_names a /\
    NoDup (map fst devices) /\
    item0 (args.gpus a) = Ok (hd 0%Z (args.gpus a)) /\
    lookup "main" devices = Some (hd 0%Z (args.gpus a)) /\
    device_in_use c' = Some (hd 0%Z (args.gpus a)).
Proof. exact (build_updater_gpu a it c). Qed.

Lemma device_map_lists_every_device_witness :
  exists devices c',
    build_updater More.three_gpus
                  (SerialIterator TrainSplit 8 true true) no_cuda
    = Ok (ParallelUpdater (SerialIterator TrainSplit 8 true true) devices, c') /\
    map snd devices = [2; 0; 5]%Z /\
    map fst devices = ["main"; "0"; "1"]%string /\
    NoDup (map fst devices) /\
    item0 [2; 0; 5]%Z = Ok 2%Z /\
    lookup "main" devices = Some 2%Z /\
    device_in_use c' = Some 2%Z.
Proof.
  apply (device_map_lists_every_device More.three_gpus
           (SerialIterator TrainSplit 8 true true) no_cuda);
    simpl; discriminate.
Defined.

(* ===================================================================== *)
(** ** The trainer that [build] makes *)
(* ===================================================================== *)

(** Every part of the trainer that lines 35-146 build. *)
Lemma build_inv (a : args.t) (p : params.t) (env : Env) (tr : Trainer) :
  build a p env = Ok tr ->
  exists enc tea train_iter valid_iter u c g0,
    args.gpus a <> [] /\
    item0 (args.gpus a) = Ok g0 /\
    build_model p env = Ok (mkModel enc tea (new_student env)) /\
    build_iterators a p = Ok (train_iter, valid_iter) /\
    build_updater a train_iter (configure_cuda a) = Ok (u, c) /\
    tr = mkTrainer
           (mkModel (disable_update (setup_link enc))
                    (disable_update (setup_link tea))
                    (setup_link (new_student env)))
           (mkOptimizer
              (mkHyper (params.lr p / inject_Z (len (args.gpus a)))
                       (9 # 10) (999 # 1000) (1 # 100000000))
              0 (Some []) [GradientClipping 10])
           u 0 (params.trigger p) (build_extensions p valid_iter g0)
           no_observation [] [] c.
Proof.
  unfold build. intros H.
  destruct (build_model p env) as [m|] eqn:Hm; [|discriminate].
  cbn [bind] in H.
  assert (Hshape : exists enc tea, m = mkModel enc tea (new_student env)).
  { unfold build_model in Hm.
    destruct (load_npz env (params.model p) (new_encoder env) _) as [enc|];
      [|discriminate].
    destruct (load_npz env (params.model p) (new_teacher env) _) as [tea|];
      [|discriminate].
    cbn [bind] in Hm. injection Hm as <-. eauto. }
  destruct Hshape as (enc & tea & ->).
  destruct (args.gpus a) as [|g gs] eqn:Hg.
  - rewrite (build_optimizer_empty a p _ Hg) in H. discriminate.
  - assert (Hne : args.gpus a <> []) by (rewrite Hg; discriminate).
    rewrite (build_optimizer_ok a p _ Hne) in H.
    destruct (build_iterators a p) as [[ti vi]|] eqn:Hit; [|discriminate].
    cbn [bind fst snd] in H.
    destruct (build_updater a ti (configure_cuda a)) as [[u c]|] eqn:Hu;
      [|discriminate].
    rewrite Hg in H. cbn [bind item0 fst snd] in H. injection H as <-.
    exists enc, tea, ti, vi, u, c, g. rewrite <- Hg.
    repeat split; auto. rewrite Hg. reflexivity.
Qed.

(** X4.  Lines 35-37, 103-110 and 118.  In the trainer the script builds,
    the CUDA workspace size and autotune are set exactly when the updater is
    the ParallelUpdater, that is for every device list but [[-1]]; the
    StandardUpdater comes with untouched CUDA settings.  The Evaluator is
    given the first listed device, which in the parallel case is the
    updater's 'main' device. *)
Theorem cuda_settings_match_updater
  (a : args.t) (p : params.t) (env : Env) (tr : Trainer) :
  build a p env = Ok tr ->
  exists g0 valid_iter,
    item0 (args.gpus a) = Ok g0 /\
    nth_error (extensions tr) 1 =
    Some (mkEntry (Evaluator valid_iter g0) (params.evaluate_interval p)) /\
    ((args.gpus a = [(-1)%Z] /\
      (exists it, updater tr = StandardUpdater it) /\ cuda tr = no_cuda) \/
     (args.gpus a <> [(-1)%Z] /\
      (exists it devices, updater tr = ParallelUpdater it devices /\
                          lookup "main" devices = Some g0) /\
      cuda tr = mkCuda (Some 1073741824%Z) true (Some g0))).
Proof.
  intros Hb.
  destruct (build_inv a p env tr Hb)
    as (enc & tea & ti & vi & u & c & g0 & Hne & Hg0 & _ & _ & Hu & ->).
  exists g0, vi. split; [exact Hg0|]. split; [reflexivity|].
  cbn [updater cuda].
  destruct (list_eqb (args.gpus a) [(-1)%Z]) eqn:E.
  - left. apply list_eqb_eq in E. split; [exact E|].
    unfold build_updater, configure_cuda in Hu. rewrite E in Hu.
    cbn [list_eqb Z.eqb Pos.eqb andb negb] in Hu. injection Hu as <- <-.
    split; [eauto | reflexivity].
  - right.
    assert (Hcpu : args.gpus a <> [(-1)%Z]).
    { intros H. apply list_eqb_eq in H. congruence. }
    split; [exact Hcpu|].
    destruct (build_updater_gpu a ti (configure_cuda a) Hne Hcpu)
      as (devices & c' & Hu' & _ & _ & _ & Hi & Hmain & _).
    rewrite Hu' in Hu. injection Hu as <- <-.
    rewrite Hg0 in Hi. injection Hi as ->.
    split; [eauto|].
    unfold build_updater in Hu'. rewrite E, Hg0 in Hu'. cbn [bind] in Hu'.
    injection Hu' as _ <-. unfold configure_cuda. rewrite E. reflexivity.
Qed.

Lemma cuda_settings_match_updater_witness :
  exists tr g0 valid_iter,
    build Sample.two_gpus Sample.config Sample.env = Ok tr /\
    item0 (args.gpus Sample.two_gpus) = Ok g0 /\
    nth_error (extensions tr) 1 =
    Some (mkEntry (Evaluator valid_iter g0)
                  (params.evaluate_interval Sample.config)) /\
    ((args.gpus Sample.two_gpus = [(-1)%Z] /\
      (exists it, updater tr = StandardUpdater it) /\ cuda tr = no_cuda) \/
     (args.gpus Sample.two_gpus <> [(-1)%Z] /\
      (exists it devices, updater tr = ParallelUpdater it devices /\
                          lookup "main" devices = Some g0) /\
      cuda tr = mkCuda (Some 1073741824%Z) true (Some g0))).
Proof.
  assert (Hb : exists tr, build Sample.two_gpus Sample.config Sample.env = Ok tr)
    by (eexists; reflexivity).
  destruct Hb as [tr Hb].
  destruct (cuda_settings_match_updater _ _ _ tr Hb) as (g0 & vi & H).
  exists tr, g0, vi. split; [exact Hb | exact H].
Defined.

(* ===================================================================== *)
(** ** Loading the pretrained teacher *)
(* ===================================================================== *)

Lemma load_link_reads (f : Npz) (path : string) (l l' : Link) :
  load_link f path l = Ok l' ->
  map fst l' = map fst l /\
  forall n q, In (n, q) l' -> lookup (path ++ n) f = Some (NArray (data q)).
Proof.
  intros H. apply mapM_Forall2 in H.
  induction H as [|np np' l l' Hnp _ [IHn IHl]]; simpl.
  - split; [reflexivity | intros n q []].
  - destruct (load_param_spec _ _ _ _ Hnp) as (Hn & _ & Hlook).
    split; [rewrite Hn, IHn; reflexivity|].
    intros n q [Heq|Hin]; [|apply IHl; exact Hin].
    subst np'. simpl in *. rewrite Hn. exact Hlook.
Qed.


Lemma in_setup_disable (l : Link) (n : string) (q : Param) :
  In (n, q) (disable_update (setup_link l)) ->
  exists q0, In (n, q0) l /\ data q = data q0.
Proof.
  unfold disable_update, setup_link, map_params. rewrite map_map.
  intros Hin. apply in_map_iff in Hin. destruct Hin as ([n0 q0] & Heq & Hin).
  simpl in Heq. injection Heq as <- <-. exists q0. auto.
Qed.

(** X5.  Lines 63-80.  In the trainer the script builds, every encoder
    parameter holds the array that the teacher's snapshot stores under
    [updater/model:main/encoder/<name>] and every teacher parameter the array
    stored under [updater/model:main/decoder/<name>]; the networks keep their
    parameter names, and the student keeps the values it was constructed
    with. *)
Theorem pretrained_weights_loaded
  (a : args.t) (p : params.t) (env : Env) (tr : Trainer) :
  build a p env = Ok tr ->
  exists f,
    files env (params.model p) = Some f /\
    map fst (encoder (the_model tr)) = map fst (new_encoder env) /\
    map fst (teacher (the_model tr)) = map fst (new_teacher env) /\
    (forall n q, In (n, q) (encoder (the_model tr)) ->
       lookup ("updater/model:main/encoder/" ++ n) f = Some (NArray (data q))) /\
    (forall n q, In (n, q) (teacher (the_model tr)) ->
       lookup ("updater/model:main/decoder/" ++ n) f = Some (NArray (data q))) /\
    trainable (the_model tr) = values (new_student env).
Proof.
  intros Hb.
  destruct (build_inv a p env tr Hb)
    as (enc & tea & ti & vi & u & c & g0 & _ & _ & Hm & _ & _ & ->).
  unfold build_model, load_npz, open_npz in Hm.
  destruct (files env (params.model p)) as [f|]; [|discriminate].
  cbn [bind] in Hm.
  destruct (load_link f "updater/model:main/encoder/" (new_encoder env))
    as [enc'|] eqn:He; [|discriminate].
  destruct (load_link f "updater/model:main/decoder/" (new_teacher env))
    as [tea'|] eqn:Ht; [|discriminate].
  cbn [bind] in Hm. injection Hm as -> ->.
  destruct (load_link_reads _ _ _ _ He) as [Hne Hle].
  destruct (load_link_reads _ _ _ _ Ht) as [Hnt Hlt].
  exists f. cbn [the_model encoder teacher student].
  split; [reflexivity|].
  split; [rewrite names_disable, names_setup; exact Hne|].
  split; [rewrite names_disable, names_setup; exact Hnt|].
  split; [|split].
  - intros n q Hin. destruct (in_setup_disable _ _ _ Hin) as (q0 & Hin0 & ->).
    apply Hle. exact Hin0.
  - intros n q Hin. destruct (in_setup_disable _ _ _ Hin) as (q0 & Hin0 & ->).
    apply Hlt. exact Hin0.
  - unfold trainable, values, setup_link, map_params. cbn [student].
    rewrite map_map. reflexivity.
Qed.

Lemma pretrained_weights_loaded_witness :
  exists tr f,
    build args.default Sample.config Sample.env = Ok tr /\
    files Sample.env (params.model Sample.config) = Some f /\
    map fst (encoder (the_model tr)) = map fst (new_encoder Sample.env) /\
    map fst (teacher (the_model tr)) = map fst (new_teacher Sample.env) /\
    (forall n q, In (n, q) (encoder (the_model tr)) ->
       lookup ("updater/model:main/encoder/" ++ n) f = Some (NArray (data q))) /\
    (forall n q, In (n, q) (teacher (the_model tr)) ->
       lookup ("updater/model:main/decoder/" ++ n) f = Some (NArray (data q))) /\
    trainable (the_model tr) = values (new_student Sample.env).
Proof.
  assert (Hb : exists tr, build args.default Sample.config Sample.env = Ok tr)
    by (eexists; reflexivity).
  destruct Hb as [tr Hb].
  destruct (pretrained_weights_loaded _ _ _ tr Hb) as (f & H).
  exists tr, f. split; [exact Hb | exact H].
Defined.


(* ===================================================================== *)
(** ** More on gradient clipping *)
(* ===================================================================== *)

Section ClippingMore.

Local Open Scope R_scope.

Lemma sum_sqnorm_app (g1 g2 : list array) :
  sum_sqnorm (g1 ++ g2) = sum_sqnorm g1 + sum_sqnorm g2.
Proof.
  induction g1 as [|a g1 IH]; simpl; [ring|].
  fold (sum_sqnorm (g1 ++ g2)). fold (sum_sqnorm g1). rewrite IH. ring.
Qed.

Lemma target_grads_all (m : DistilModel) :
  target_grads [] m = (grads (encoder m) ++ grads (teacher m)
                       ++ grads (student m))%list.
Proof.
  unfold target_grads, namedparams. simpl.
  rewrite app_nil_r, !grads_app, !grads_qualify. reflexivity.
Qed.

Lemma values_scaled (r : R) (l : Link) :
  values (map_params (scale_grad r) l) = values l /\
  rules (map_params (scale_grad r) l) = rules l.
Proof.
  unfold values, rules, map_params. rewrite !map_map. split; reflexivity.
Qed.

Lemma call_hook_keeps_values (path : LinkPath) (h : Hook) (m : DistilModel)
  (c : Child) :
  values (child c (call_hook path m h)) = values (child c m) /\
  rules (child c (call_hook path m h)) = rules (child c m).
Proof.
  destruct h as [threshold]. unfold call_hook.
  destruct (clip_rate threshold (target_grads path m)) as [rate|]; [|auto].
  rewrite child_map_target. destruct (in_target path c); [|auto].
  apply values_scaled.
Qed.

Lemma script_hooks (a : args.t) (p : params.t) (m0 m1 : DistilModel)
  (o : Optimizer) (m : DistilModel) :
  build_optimizer a p m0 = Ok (o, m1) ->
  call_hooks o [] m = call_hook [] m (GradientClipping 10).
Proof.
  intros Hb. destruct (args.gpus a) as [|g0 gs] eqn:Hg.
  - rewrite (build_optimizer_empty a p m0 Hg) in Hb. discriminate.
  - assert (Hne : args.gpus a <> []) by (rewrite Hg; discriminate).
    rewrite (build_optimizer_ok a p m0 Hne) in Hb.
    injection Hb as <- _. reflexivity.
Qed.

End ClippingMore.

(** X7.  Lines 84-85.  The norm that the clipping hook compares with 10 is
    taken over the gradients of encoder, teacher and student together.  When
    it exceeds 10, the student's gradients are multiplied by 10 divided by
    that norm, a factor strictly between 0 and 1, however small the student's
    own gradients are. *)
Theorem clipping_counts_frozen_gradients
  (a : args.t) (p : params.t) (m0 m1 : DistilModel) (o : Optimizer)
  (m : DistilModel) :
  build_optimizer a p m0 = Ok (o, m1) ->
  (10 < global_norm (target_grads [] m))%R ->
  let rate := (10 / global_norm (target_grads [] m))%R in
  sum_sqnorm (target_grads [] m) =
  (sum_sqnorm (grads (encoder m)) + sum_sqnorm (grads (teacher m))
   + sum_sqnorm (grads (student m)))%R /\
  (0 < rate < 1)%R /\
  grads (student (call_hooks o [] m)) = map (scale rate) (grads (student m)).
Proof.
  intros Hb Hbig rate. rewrite (script_hooks a p m0 m1 o m Hb).
  split; [|split].
  - rewrite target_grads_all, !sum_sqnorm_app. ring.
  - subst rate. split.
    + apply Rdiv_lt_0_compat; lra.
    + apply (Rmult_lt_reg_r (global_norm (target_grads [] m))); [lra|].
      unfold Rdiv. rewrite Rmult_assoc, Rinv_l by lra. lra.
  - unfold call_hook.
    assert (Ht : (0 < 10)%R) by lra.
    pose proof (clip_rate_spec 10 (target_grads [] m) Ht) as Hspec.
    destruct (clip_rate 10 (target_grads [] m)) as [r|]; [|lra].
    destruct Hspec as [_ ->].
    change (student (map_target [] (map_params (scale_grad rate)) m))
      with (map_params (scale_grad rate) (student m)).
    apply grads_scaled.
Qed.

Lemma lopsided_norm : (10 < global_norm (target_grads [] More.lopsided))%R.
Proof.
  unfold global_norm, target_grads. simpl.
  replace 10%R with (sqrt (10 * 10)) at 1 by (apply sqrt_square; lra).
  apply sqrt_lt_1_alt. lra.
Qed.

Lemma clipping_counts_frozen_gradients_witness :
  exists o m1,
    build_optimizer args.default Sample.config
                    (mkModel (Sample.weight 1) (Sample.weight 2) (Sample.weight 0))
    = Ok (o, m1) /\
    (10 < global_norm (target_grads [] More.lopsided))%R /\
    let rate := (10 / global_norm (target_grads [] More.lopsided))%R in
    (0 < rate < 1)%R /\
    grads (student (call_hooks o [] More.lopsided)) = [[(1 * rate)%R]].
Proof.
  eexists. eexists. split; [reflexivity|]. split; [exact lopsided_norm|].
  destruct (clipping_counts_frozen_gradients args.default Sample.config
              (mkModel (Sample.weight 1) (Sample.weight 2) (Sample.weight 0))
              _ _ More.lopsided eq_refl lopsided_norm) as (_ & Hrate & Hg).
  split; [exact Hrate | exact Hg].
Defined.



(* ===================================================================== *)
(** ** The training loop and its stop trigger *)
(* ===================================================================== *)

Section LoopMore.

Context {net : Net}.

Lemma call_extension_keeps (i : nat) (e : Entry) (tr : Trainer) :
  stop_trigger (call_extension i e tr) = stop_trigger tr /\
  updater (call_extension i e tr) = updater tr /\
  cuda (call_extension i e tr) = cuda tr.
Proof. destruct e as [ext trig]. destruct ext; repeat split. Qed.

Lemma invoke_keeps (tr : Trainer) (i : nat) :
  stop_trigger (invoke tr i) = stop_trigger tr /\
  updater (invoke tr i) = updater tr /\ cuda (invoke tr i) = cuda tr.
Proof.
  unfold invoke. destruct (nth_error (extensions tr) i) as [e|]; [|auto].
  destruct (entry_trigger e (iteration tr)); [|auto].
  apply call_extension_keeps.
Qed.

Lemma fold_invoke_keeps (l : list nat) (tr : Trainer) :
  stop_trigger (fold_left invoke l tr) = stop_trigger tr /\
  updater (fold_left invoke l tr) = updater tr /\
  cuda (fold_left invoke l tr) = cuda tr.
Proof.
  revert tr. induction l as [|i l IH]; intros tr; simpl; [auto|].
  destruct (IH (invoke tr i)) as (H1 & H2 & H3).
  destruct (invoke_keeps tr i) as (K1 & K2 & K3).
  repeat split; congruence.
Qed.

Lemma step_keeps (tr tr' : Trainer) (b : Batch) :
  step tr b = Ok tr' ->
  stop_trigger tr' = stop_trigger tr /\ updater tr' = updater tr /\
  cuda tr' = cuda tr.
Proof.
  unfold step, update. 
  destruct (optimizer_update (updater tr) b (optimizer tr) (the_model tr))
    as [om|]; [|discriminate].
  cbn [bind]. intros H. injection H as <-. unfold run_extensions.
  match goal with
  | |- context [fold_left invoke ?l ?t] =>
      destruct (fold_invoke_keeps l t) as (H1 & H2 & H3)
  end.
  rewrite H1, H2, H3. repeat split.
Qed.

Lemma loop_spec (bs : list Batch) :
  forall (tr : Trainer) (s : Shift) (trig : Trigger) (rest : list Entry)
         (path : LinkPath),
    extensions tr = mkEntry (ExponentialShift s) trig :: rest ->
    Forall (fun e => is_shift e = false) rest ->
    target (optimizer tr) = Some path ->
    exists tr' k,
      loop bs tr = Ok tr' /\
      (k <= List.length bs)%nat /\
      steps (firstn k bs) tr = Ok tr' /\
      iteration tr' = (iteration tr + k)%nat /\
      (forall j, (j < k)%nat -> stop_trigger tr (iteration tr + j)%nat = false) /\
      ((k < List.length bs)%nat -> stop_trigger tr (iteration tr + k)%nat = true).
Proof.
  induction bs as [|b bs IH]; intros tr s trig rest path Hext Hrest Htarget.
  - exists tr, 0%nat. cbn [loop List.length firstn steps].
    rewrite Nat.add_0_r. repeat split; auto; intros; lia.
  - cbn [loop]. destruct (stop_trigger tr (iteration tr)) eqn:Hstop.
    + exists tr, 0%nat. cbn [firstn steps List.length].
      rewrite Nat.add_0_r. repeat split; auto; intros; lia.
    + destruct (step_spec tr b s trig rest path Hext Hrest Htarget)
        as (tr1 & Hstep & Hcore).
      destruct (step_keeps _ _ _ Hstep) as (Hst & _ & _).
      unfold core in Hcore. injection Hcore as _ Ho _ Hi He.
      assert (Ht1 : target (optimizer tr1) = Some path)
        by (rewrite Ho; reflexivity).
      destruct (IH tr1 _ trig rest path He Hrest Ht1)
        as (tr' & k & Hloop & Hk & Hsteps & Hit & Hbefore & Hat).
      exists tr', (S k). rewrite Hstep. cbn [bind firstn steps List.length].
      rewrite Hstep. cbn [bind].
      split; [exact Hloop|]. split; [lia|]. split; [exact Hsteps|].
      split; [rewrite Hit, Hi; lia|]. split.
      * intros [|j] Hj; [rewrite Nat.add_0_r; exact Hstop|].
        rewrite <- Hst. specialize (Hbefore j). rewrite Hi in Hbefore.
        replace (iteration tr + S j)%nat with (S (iteration tr) + j)%nat by lia.
        apply Hbefore. lia.
      * intros Hlt. rewrite <- Hst. rewrite Hi in Hat.
        replace (iteration tr + S k)%nat with (S (iteration tr) + k)%nat by lia.
        apply Hat. lia.
Qed.

Lemma deserialize_keeps (f : Npz) (tr0 tr : Trainer) :
  deserialize f tr0 = Ok tr ->
  stop_trigger tr = stop_trigger tr0 /\ updater tr = updater tr0 /\
  cuda tr = cuda tr0 /\ hyper (optimizer tr) = hyper (optimizer tr0).
Proof.
  unfold deserialize.
  destruct (read_int f "updater/iteration"); [|discriminate].
  destruct (read_int f "updater/optimizer:main/t"); [|discriminate].
  cbn [bind].
  destruct (load_child f (optimizer tr0) Encoder (the_model tr0));
    [|discriminate].
  destruct (load_child f (optimizer tr0) Teacher (the_model tr0));
    [|discriminate].
  destruct (load_child f (optimizer tr0) Student (the_model tr0));
    [|discriminate].
  cbn [bind].
  destruct (mapM (load_shift f) (extensions tr0)); [|discriminate].
  cbn [bind]. intros H. injection H as <-. repeat split.
Qed.

Lemma main_stop_trigger (a : args.t) (p : params.t) (env : Env) (tr : Trainer) :
  main a p env = Ok tr -> stop_trigger tr = params.trigger p.
Proof.
  intros Hmain. destruct (main_cases _ _ _ _ Hmain) as (tr0 & Hb & Hcase).
  destruct (build_inv a p env tr0 Hb)
    as (enc & tea & ti & vi & u & c & g0 & _ & _ & _ & _ & _ & Htr0).
  assert (H0 : stop_trigger tr0 = params.trigger p) by (rewrite Htr0; reflexivity).
  destruct Hcase as [[_ ->] | (_ & f & _ & Hd)]; [exact H0|].
  destruct (deserialize_keeps _ _ _ Hd) as (Hst & _). congruence.
Qed.

(** X9.  Lines 113 and 159.  [trainer.run()] on the batches [bs] completes
    exactly the steps up to the first iteration count at which
    [params.trigger] fires: it ends after [k] steps, the trigger was off at
    each of the [k] counts it was asked before a step, and unless the batches
    ran out it is on at the count reached. *)
Theorem run_stops_at_first_firing
  (a : args.t) (p : params.t) (env : Env) (tr : Trainer) (bs : list Batch) :
  main a p env = Ok tr ->
  exists tr' k,
    run bs tr = Ok tr' /\
    (k <= List.length bs)%nat /\
    run_steps (firstn k bs) tr = Ok tr' /\
    iteration tr' = (iteration tr + k)%nat /\
    (forall j, (j < k)%nat -> params.trigger p (iteration tr + j)%nat = false) /\
    ((k < List.length bs)%nat -> params.trigger p (iteration tr + k)%nat = true).
Proof.
  intros Hmain.
  destruct (main_state _ _ _ _ Hmain)
    as (Ht & _ & _ & _ & _ & _ & s & rest & He & Hrest & Ha & _ & Hi).
  pose proof (main_stop_trigger _ _ _ _ Hmain) as Hstop.
  pose proof (shift_initialize_alpha s (hyper (optimizer tr)) Ha Hi) as Hsh.
  cbv zeta in Hsh.
  pose proof (initialize_spec tr s _ rest _ He Hrest Hsh) as Hinit.
  cbn [fst snd] in Hinit.
  match type of Hinit with _ = Ok ?t => set (tr0 := t) in * end.
  destruct (loop_spec bs tr0 _ (params.annealing_interval p) rest []
                      eq_refl Hrest Ht)
    as (tr' & k & Hloop & Hk & Hsteps & Hit & Hbefore & Hat).
  exists tr', k. unfold run, run_steps. rewrite Hinit. cbn [bind].
  change (stop_trigger tr0) with (stop_trigger tr) in *.
  change (iteration tr0) with (iteration tr) in *.
  rewrite Hstop in *. repeat split; assumption.
Qed.

End LoopMore.

Lemma run_stops_at_first_firing_witness :
  exists tr tr',
    main args.default More.config Sample.env = Ok tr /\
    @run Sample.net [tt; tt; tt; tt; tt; tt] tr = Ok tr' /\
    iteration tr' = 4%nat.
Proof.
  assert (Hm : exists tr, main args.default More.config Sample.env = Ok tr)
    by (eexists; reflexivity).
  destruct Hm as [tr Hm].
  assert (H0 : iteration tr = 0%nat).
  { destruct (main_cases _ _ _ _ Hm) as (tr0 & Hb & [[_ ->] | [Hf _]]);
      [|discriminate].
    destruct (build_spec _ _ _ _ Hb) as (_ & _ & _ & _ & _ & _ & _ & _ & _ & H & _).
    exact H. }
  destruct (@run_stops_at_first_firing Sample.net args.default More.config
              Sample.env tr [tt; tt; tt; tt; tt; tt] Hm)
    as (tr' & k & Hrun & Hk & _ & Hit & Hbefore & Hat).
  exists tr, tr'. split; [exact Hm|]. split; [exact Hrun|].
  rewrite Hit, H0. rewrite H0 in Hbefore, Hat.
  cbn [params.trigger More.config List.length] in Hk, Hbefore, Hat.
  assert (Hk4 : k = 4%nat).
  { destruct (Nat.lt_trichotomy k 4) as [Hlt|[Heq|Hgt]]; [|exact Heq|].
    - assert (Hon : (4 <=? 0 + k)%nat = true) by (apply Hat; lia).
      apply Nat.leb_le in Hon. lia.
    - assert (Hoff : (4 <=? 0 + 4)%nat = false) by (apply Hbefore; lia).
      discriminate. }
  rewrite Hk4. reflexivity.
Defined.

(* ===================================================================== *)
(** ** Step counters *)
(* ===================================================================== *)

Lemma rule_counts_of_rules (l l' : Link) :
  rules l' = rules l -> rule_counts l' = rule_counts l /\ skeleton l' = skeleton l.
Proof.
  intros H.
  assert (Hc : forall x, rule_counts x =
                 map (fun y => (fst y, option_map rule_t (snd y))) (rules x))
    by (intros x; unfold rule_counts, rules; rewrite map_map; reflexivity).
  assert (Hs : forall x, skeleton x =
                 map (fun y => (fst y, option_map enabled (snd y))) (rules x))
    by (intros x; unfold skeleton, rules; rewrite map_map; reflexivity).
  rewrite !Hc, !Hs, H. split; reflexivity.
Qed.

Lemma set_grads_rules (g : Child -> string -> array) (c : Child) (m : DistilModel) :
  rules (child c (set_grads g m)) = rules (child c m).
Proof.
  unfold set_grads. rewrite child_map_links. unfold rules. rewrite map_map.
  reflexivity.
Qed.

Lemma call_hooks_rules (o : Optimizer) (path : LinkPath) (c : Child)
  (m : DistilModel) :
  rules (child c (call_hooks o path m)) = rules (child c m).
Proof.
  unfold call_hooks. generalize (hooks o) as hs. intros hs. revert m.
  induction hs as [|h hs IH]; intros m; simpl; [reflexivity|].
  rewrite IH. apply call_hook_keeps_values.
Qed.

Section Counters.

Context {net : Net}.

Lemma update_counts (h : Hyper) (l : Link) :
  flags_are true l ->
  rule_counts (map_params (param_update h) l) =
  map (fun x => (fst x, option_map S (snd x))) (rule_counts l).
Proof.
  induction 1 as [|np l Hnp _ IH]; simpl; [reflexivity|].
  fold (rule_counts (map_params (param_update h) l)). fold (rule_counts l).
  rewrite IH. f_equal. f_equal. unfold param_update.
  destruct (update_rule (snd np)) as [r|]; [|discriminate].
  simpl in Hnp. injection Hnp as ->. reflexivity.
Qed.

Lemma updated_student_counts (u : Updater) (b : Batch) (o : Optimizer)
  (m : DistilModel) :
  flags_are true (student m) ->
  rule_counts (student (updated_model u b o [] m)) =
  map (fun x => (fst x, option_map S (snd x))) (rule_counts (student m)).
Proof.
  intros Hon. unfold updated_model.
  set (m2 := call_hooks o [] (set_grads (backward u m b) m)).
  assert (Hr : rules (student m2) = rules (student m)).
  { unfold m2. rewrite (call_hooks_rules o [] Student).
    apply (set_grads_rules _ Student). }
  destruct (rule_counts_of_rules _ _ Hr) as [Hc Hs].
  change (student (map_target [] (map_params (param_update (hyper o))) m2))
    with (map_params (param_update (hyper o)) (student m2)).
  rewrite update_counts by (apply (flags_skeleton true _ _ Hs Hon)).
  rewrite Hc. reflexivity.
Qed.

Lemma steps_counts (bs : list Batch) :
  forall (tr tr' : Trainer) (s : Shift) (trig : Trigger) (rest : list Entry),
    extensions tr = mkEntry (ExponentialShift s) trig :: rest ->
    Forall (fun e => is_shift e = false) rest ->
    target (optimizer tr) = Some [] ->
    flags_are true (student (the_model tr)) ->
    steps bs tr = Ok tr' ->
    rule_counts (student (the_model tr')) =
    map (fun x => (fst x, option_map (Nat.add (List.length bs)) (snd x)))
        (rule_counts (student (the_model tr))).
Proof.
  induction bs as [|b bs IH]; intros tr tr' s trig rest Hext Hrest Ht Hon Hsteps.
  - cbn [steps] in Hsteps. injection Hsteps as <-. cbn [List.length].
    rewrite <- (map_id (rule_counts (student (the_model tr)))) at 1.
    apply map_ext. intros [n [t|]]; reflexivity.
  - destruct (step_spec tr b s trig rest [] Hext Hrest Ht)
      as (tr1 & Hstep & Hcore).
    cbn [steps] in Hsteps. rewrite Hstep in Hsteps. cbn [bind] in Hsteps.
    unfold core in Hcore. injection Hcore as Hm Ho _ _ He.
    assert (Ht1 : target (optimizer tr1) = Some []) by (rewrite Ho; reflexivity).
    assert (Hon1 : flags_are true (student (the_model tr1))).
    { apply (flags_skeleton true (student (the_model tr))); [|exact Hon].
      rewrite Hm. apply pointwise_skeleton.
      apply (updated_model_pointwise _ _ _ _ _ Student). }
    rewrite (IH tr1 tr' _ trig rest He Hrest Ht1 Hon1 Hsteps).
    rewrite Hm, (updated_student_counts _ _ _ _ Hon), map_map.
    apply map_ext. intros [n [t|]]; cbn [fst snd option_map List.length];
      [|reflexivity].
    f_equal. f_equal. lia.
Qed.

(** X10.  Line 159.  From the trainer the script hands to [trainer.run()],
    N steps add N to the iteration count, to the optimizer's step count and
    to the step count of the update rule of every student parameter, while
    the update rules of teacher and encoder keep their step counts. *)
Theorem counters_advance_together
  (a : args.t) (p : params.t) (env : Env) (tr : Trainer) (bs : list Batch) :
  main a p env = Ok tr ->
  exists tr',
    run_steps bs tr = Ok tr' /\
    iteration tr' = (iteration tr + List.length bs)%nat /\
    opt_t (optimizer tr') = (opt_t (optimizer tr) + List.length bs)%nat /\
    rule_counts (student (the_model tr')) =
    map (fun x => (fst x, option_map (Nat.add (List.length bs)) (snd x)))
        (rule_counts (student (the_model tr))) /\
    rule_counts (teacher (the_model tr')) = rule_counts (teacher (the_model tr)) /\
    rule_counts (encoder (the_model tr')) = rule_counts (encoder (the_model tr)).
Proof.
  intros Hmain.
  destruct (main_state _ _ _ _ Hmain)
    as (Ht & _ & _ & Htea & Henc & Hstu & s & rest & He & Hrest & Ha & _ & Hi).
  pose proof (shift_initialize_alpha s (hyper (optimizer tr)) Ha Hi) as Hsh.
  cbv zeta in Hsh.
  pose proof (initialize_spec tr s _ rest _ He Hrest Hsh) as Hinit.
  cbn [fst snd] in Hinit.
  destruct (run_steps_spec a p env tr bs Hmain)
    as (tr0 & tr' & Hinit' & Hsteps & Hrun & _ & Hit & Hot & Hpw).
  rewrite Hinit in Hinit'. injection Hinit' as <-.
  exists tr'. split; [exact Hrun|]. split; [exact Hit|]. split; [exact Hot|].
  split; [|split].
  - refine (steps_counts bs _ tr' _ _ rest _ Hrest _ _ Hsteps);
      [reflexivity | exact Ht | exact Hstu].
  - destruct (pointwise_frozen _ _ (Hpw Teacher) (flags_off_frozen _ Htea))
      as (_ & Hr & _).
    apply rule_counts_of_rules. exact Hr.
  - destruct (pointwise_frozen _ _ (Hpw Encoder) (flags_off_frozen _ Henc))
      as (_ & Hr & _).
    apply rule_counts_of_rules. exact Hr.
Qed.

End Counters.

Lemma counters_advance_together_witness :
  exists tr tr',
    main Sample.resumed Sample.config Sample.env = Ok tr /\
    @run_steps Sample.net [tt; tt; tt] tr = Ok tr' /\
    iteration tr' = 10%nat /\
    opt_t (optimizer tr') = 10%nat /\
    rule_counts (student (the_model tr')) = [("W"%string, Some 10%nat)] /\
    rule_counts (teacher (the_model tr')) = [("W"%string, Some 0%nat)] /\
    rule_counts (encoder (the_model tr')) = [("W"%string, Some 0%nat)].
Proof.
  assert (Hm : exists tr, main Sample.resumed Sample.config Sample.env = Ok tr
                          /\ iteration tr = 7%nat /\ opt_t (optimizer tr) = 7%nat
                          /\ rule_counts (student (the_model tr))
                             = [("W"%string, Some 7%nat)]
                          /\ rule_counts (teacher (the_model tr))
                             = [("W"%string, Some 0%nat)]
                          /\ rule_counts (encoder (the_model tr))
                             = [("W"%string, Some 0%nat)])
    by (eexists; repeat split).
  destruct Hm as (tr & Hm & Hi & Ho & Hs & Ht & He).
  destruct (@counters_advance_together Sample.net Sample.resumed Sample.config
              Sample.env tr [tt; tt; tt] Hm)
    as (tr' & Hrun & Hit & Hot & Hcs & Hct & Hce).
  exists tr, tr'. rewrite Hit, Hot, Hcs, Hct, Hce, Hi, Ho, Hs, Ht, He.
  repeat split; assumption.
Defined.

(* ===================================================================== *)
(** ** The snapshot extension *)
(* ===================================================================== *)

Lemma serialize_core (tr tr' : Trainer) :
  core tr = core tr' -> serialize tr = serialize tr'.
Proof.
  unfold core. intros H. injection H as Hm Ho _ Hi He.
  unfold serialize. rewrite Hm, Ho, Hi, He. reflexivity.
Qed.

Lemma main_extensions (a : args.t) (p : params.t) (env : Env) (tr : Trainer) :
  main a p env = Ok tr ->
  exists s valid_iter device,
    extensions tr = mkEntry (ExponentialShift s) (params.annealing_interval p)
                            :: script_rest p valid_iter device /\
    shift_attr s = "alpha"%string /\ shift_init s = None /\
    target (optimizer tr) = Some [].
Proof.
  intros Hmain. destruct (main_cases _ _ _ _ Hmain) as (tr0 & Hb & Hcase).
  destruct (build_inv a p env tr0 Hb)
    as (enc & tea & ti & vi & u & c & g0 & _ & _ & _ & _ & _ & Htr0).
  assert (He0 : extensions tr0 =
                mkEntry (ExponentialShift (mkShift "alpha" (1 # 2) None 0 None))
                        (params.annealing_interval p) :: script_rest p vi g0)
    by (rewrite Htr0; reflexivity).
  assert (Hrest : Forall (fun e => is_shift e = false) (script_rest p vi g0))
    by (repeat constructor).
  destruct Hcase as [[_ ->] | (_ & f & _ & Hd)].
  - eexists. exists vi, g0. split; [exact He0|]. rewrite Htr0. repeat split.
  - destruct (deserialize_spec _ _ _ _ _ _ He0 Hrest Hd)
      as (it & t & st & last & _ & _ & _ & _ & _ & _ & Ho & He).
    eexists. exists vi, g0. split; [exact He|]. rewrite Ho, Htr0.
    repeat split.
Qed.

Section Snapshots.

Context {net : Net}.

Lemma invoke_plain (tr : Trainer) (i : nat) :
  plain_at (extensions tr) i ->
  core (invoke tr i) = core tr /\ written (invoke tr i) = written tr.
Proof.
  unfold plain_at, invoke.
  destruct (nth_error (extensions tr) i) as [[ext trig]|]; [|auto].
  intros [Hs Hn]. cbn [entry_trigger].
  destruct (trig (iteration tr)); [|auto].
  destruct ext; try discriminate; auto.
Qed.

Lemma fold_invoke_plain (l : list nat) (tr : Trainer) :
  (forall i, In i l -> plain_at (extensions tr) i) ->
  core (fold_left invoke l tr) = core tr /\
  written (fold_left invoke l tr) = written tr.
Proof.
  revert tr. induction l as [|i l IH]; intros tr Hl; simpl; [auto|].
  destruct (invoke_plain tr i (Hl i (or_introl eq_refl))) as [Hc Hw].
  destruct (IH (invoke tr i)) as [Hc' Hw'].
  - intros j Hj. rewrite (core_extensions _ _ Hc). apply Hl. right. exact Hj.
  - split; congruence.
Qed.

Lemma invoke_snapshot (tr : Trainer) (i : nat) (trig : Trigger) :
  nth_error (extensions tr) i = Some (mkEntry snapshot trig) ->
  core (invoke tr i) = core tr /\
  written (invoke tr i) =
  written tr ++ (if trig (iteration tr)
                 then [(snapshot_name (iteration tr), serialize tr)]
                 else []).
Proof.
  intros He. unfold invoke. rewrite He. cbn [entry_trigger].
  destruct (trig (iteration tr)); [|rewrite app_nil_r; auto].
  split; reflexivity.
Qed.

Lemma invoke_shift_head (tr : Trainer) (s : Shift) (trig : Trigger)
  (rest : list Entry) :
  extensions tr = mkEntry (ExponentialShift s) trig :: rest ->
  exists s',
    extensions (invoke tr 0) = mkEntry (ExponentialShift s') trig :: rest /\
    written (invoke tr 0) = written tr /\
    iteration (invoke tr 0) = iteration tr.
Proof.
  intros He. unfold invoke. rewrite He. cbn [nth_error entry_trigger].
  destruct (trig (iteration tr)).
  - unfold call_extension. cbn [extension entry_trigger]. eexists.
    cbn [extensions with_extensions with_optimizer written iteration].
    rewrite He. cbn [set_nth]. repeat split.
  - exists s. auto.
Qed.

Lemma run_extensions_written (tr : Trainer) (s : Shift) (trig : Trigger)
  (p : params.t) (valid_iter : Iterator) (device : Z) :
  extensions tr = mkEntry (ExponentialShift s) trig
                          :: script_rest p valid_iter device ->
  let tr' := run_extensions tr in
  iteration tr' = iteration tr /\
  written tr' =
  written tr ++ (if params.snapshot_interval p (iteration tr')
                 then [(snapshot_name (iteration tr'), serialize tr')]
                 else []).
Proof.
  intros He tr'. subst tr'. unfold run_extensions. rewrite He.
  change (seq 0 (List.length (mkEntry (ExponentialShift s) trig
                                :: script_rest p valid_iter device)))
    with ([0] ++ [1; 2] ++ [3] ++ [4; 5; 6; 7; 8; 9; 10; 11; 12])%nat.
  rewrite !fold_left_app.
  change (fold_left invoke [0%nat] tr) with (invoke tr 0).
  destruct (invoke_shift_head tr s trig _ He) as (s' & He1 & Hw1 & Hi1).
  set (t1 := invoke tr 0) in *.
  assert (Hplain : forall i, (1 <= i <= 12)%nat -> i <> 3%nat ->
                             plain_at (extensions t1) i).
  { intros i Hi H3. rewrite He1. unfold plain_at.
    do 13 (destruct i as [|i]; [try lia; try (split; reflexivity)|]).
    lia. }
  destruct (fold_invoke_plain [1; 2]%nat t1) as [Hc2 Hw2].
  { intros i [<-|[<-|[]]]; apply Hplain; lia. }
  set (t2 := fold_left invoke [1; 2]%nat t1) in *.
  change (fold_left invoke [3%nat] t2) with (invoke t2 3).
  assert (He2 : nth_error (extensions t2) 3 =
                Some (mkEntry snapshot (params.snapshot_interval p))).
  { rewrite (core_extensions _ _ Hc2), He1. reflexivity. }
  destruct (invoke_snapshot t2 3 _ He2) as [Hc3 Hw3].
  set (t3 := invoke t2 3) in *.
  destruct (fold_invoke_plain [4; 5; 6; 7; 8; 9; 10; 11; 12]%nat t3) as [Hc4 Hw4].
  { intros i Hi. rewrite (core_extensions _ _ Hc3), (core_extensions _ _ Hc2).
    apply Hplain; simpl in Hi; lia. }
  set (t4 := fold_left invoke [4; 5; 6; 7; 8; 9; 10; 11; 12]%nat t3) in *.
  assert (Hcore : core t4 = core t2) by congruence.
  assert (Hit : iteration t4 = iteration t2)
    by (unfold core in Hcore; congruence).
  assert (Hit2 : iteration t2 = iteration tr).
  { unfold core in Hc2. injection Hc2 as _ _ _ H _. congruence. }
  split; [congruence|].
  rewrite Hw4, Hw3, Hw2, Hw1, Hit, (serialize_core _ _ Hcore). reflexivity.
Qed.

Lemma step_written (tr tr' : Trainer) (b : Batch) (s : Shift) (trig : Trigger)
  (p : params.t) (valid_iter : Iterator) (device : Z) :
  extensions tr = mkEntry (ExponentialShift s) trig
                          :: script_rest p valid_iter device ->
  step tr b = Ok tr' ->
  written tr' =
  written tr ++ (if params.snapshot_interval p (iteration tr')
                 then [(snapshot_name (iteration tr'), serialize tr')]
                 else []).
Proof.
  intros He. unfold step, update.
  destruct (optimizer_update (updater tr) b (optimizer tr) (the_model tr))
    as [om|]; [|discriminate].
  cbn [bind]. intros H. injection H as <-.
  match goal with
  | |- context [run_extensions ?t] =>
      destruct (run_extensions_written t s trig p valid_iter device He)
        as [_ Hw]
  end.
  exact Hw.
Qed.

(** X11.  Line 121.  A step at which [params.snapshot_interval] fires appends
    one file to those written so far: it is named [snapshot_iter_<n>] for the
    iteration count [n] just reached and holds the serialized trainer as it
    is after that step; a step at which the trigger does not fire writes no
    file. *)
Theorem snapshot_holds_state_after_step
  (a : args.t) (p : params.t) (env : Env) (tr : Trainer) (bs : list Batch)
  (b : Batch) :
  main a p env = Ok tr ->
  exists tr1 tr2,
    run_steps bs tr = Ok tr1 /\
    run_steps (bs ++ [b]) tr = Ok tr2 /\
    iteration tr2 = S (iteration tr1) /\
    written tr2 =
    written tr1 ++ (if params.snapshot_interval p (iteration tr2)
                    then [(snapshot_name (iteration tr2), serialize tr2)]
                    else []).
Proof.
  intros Hmain.
  destruct (main_extensions _ _ _ _ Hmain) as (s & vi & dev & He & Ha & Hi & Ht).
  assert (Hrest : Forall (fun e => is_shift e = false) (script_rest p vi dev))
    by (repeat constructor).
  pose proof (shift_initialize_alpha s (hyper (optimizer tr)) Ha Hi) as Hsh.
  cbv zeta in Hsh.
  pose proof (initialize_spec tr s _ _ _ He Hrest Hsh) as Hinit.
  cbn [fst snd] in Hinit.
  match type of Hinit with _ = Ok ?t => set (tr0 := t) in * end.
  destruct (steps_spec bs tr0 _ (params.annealing_interval p) _ []
                       eq_refl Hrest Ht)
    as (tr1 & s1 & Hsteps & He1 & Ht1 & _).
  destruct (step_spec tr1 b s1 _ _ [] He1 Hrest Ht1) as (tr2 & Hstep & Hcore).
  exists tr1, tr2. unfold run_steps. rewrite Hinit. cbn [bind].
  rewrite steps_app, Hsteps. cbn [bind steps]. rewrite Hstep. cbn [bind].
  split; [reflexivity|]. split; [reflexivity|]. split.
  - unfold core in Hcore. injection Hcore as _ _ _ H _. exact H.
  - exact (step_written tr1 tr2 b s1 _ p vi dev He1 Hstep).
Qed.

End Snapshots.

Lemma snapshot_holds_state_after_step_witness :
  exists tr tr1 tr2,
    main args.default More.config Sample.env = Ok tr /\
    @run_steps Sample.net [tt] tr = Ok tr1 /\
    @run_steps Sample.net [tt; tt] tr = Ok tr2 /\
    iteration tr2 = 2%nat /\
    written tr2 = written tr1 ++ [("snapshot_iter_2"%string, serialize tr2)].
Proof.
  assert (Hm : exists tr, main args.default More.config Sample.env = Ok tr
                          /\ iteration tr = 0%nat)
    by (eexists; split; reflexivity).
  destruct Hm as (tr & Hm & H0).
  destruct (@snapshot_holds_state_after_step Sample.net args.default More.config
              Sample.env tr [tt] tt Hm)
    as (tr1 & tr2 & Hr1 & Hr2 & Hit & Hw).
  destruct (@run_steps_spec Sample.net _ _ _ tr [tt] Hm)
    as (t0 & t1 & _ & _ & Hr1' & _ & Hit1 & _).
  rewrite Hr1 in Hr1'. injection Hr1' as <-.
  assert (Hi2 : iteration tr2 = 2%nat) by (rewrite Hit, Hit1, H0; reflexivity).
  exists tr, tr1, tr2. rewrite Hi2 in Hw.
  repeat split; assumption.
Defined.

(* ===================================================================== *)
(** ** Resuming restores the annealed optimizer *)
(* ===================================================================== *)

Section ResumeMore.

Context {net : Net}.




End ResumeMore.


(* ===================================================================== *)
(** ** Failures of the resume *)
(* ===================================================================== *)










(* ===================================================================== *)
(** ** What a step reports *)
(* ===================================================================== *)

Section Reports.

Context {net : Net}.






End Reports.

